(** * routes/papers.js: listing feed, result cache and search-event logger

    A shallow embedding of the paper-listing endpoint of the catalogue
    backend and of the helpers it is built from:

    - [JsMap]      the insertion-ordered [Map] of JavaScript;
    - [Cache]      [queryCache], [getCachedQuery], [setCachedQuery];
    - [Js]         [parseInt], truthiness, [Array.prototype.slice],
                   [JSON.stringify] of the cache-key object;
    - [Net]        [callFetch];
    - [Logger]     [makeDedupeKey], [logSearchToRecommender];
    - [Recommender] [getRecommendations];
    - [Feed]       the handlers [router.get('/')] and
                   [router.get('/search/query')];
    - [Authors], [Fields]  the pagination guards of routes/authors.js
                   and routes/fields.js.

    Times are milliseconds since the epoch, as [Date.now()] gives them.
    Numbers are integers ([Z]); fractional and non-finite doubles are
    outside the model. A number of JavaScript is a double: [Js.parseInt]
    and [Js.of_int] are what the program computes on the safe integers
    ([Js.safe_integer], up to 2^53 - 1 in size), which a double holds
    exactly and [JSON.stringify] writes digit by digit. Past them
    [parseInt] rounds to the nearest double and, from 10^21 on, numbers
    are written with an exponent: such numbers are outside the model as
    well. *)

From Stdlib Require Import ZArith Lia Ascii String.
From stdpp Require Import gmap strings list fin_maps pretty.

#[local] Set Warnings "-register-all".

Local Open Scope Z_scope.

(* ===================================================================== *)
(** ** The JavaScript [Map]: a finite map that remembers insertion order *)
(* ===================================================================== *)

Module JsMap.
Section Ordered.
Context {K V : Type} `{EqDecision K}.

(** Entries in insertion order, oldest first. *)
Definition t : Type := list (K * V).

Definition empty : t := [].

Fixpoint get (k : K) (m : t) : option V :=
  match m with
  | [] => None
  | (k', v) :: m' => if decide (k' = k) then Some v else get k m'
  end.

(** [m.set(k, v)]: an existing key keeps its position and only its value
    changes; a new key goes to the end. *)
Fixpoint set (k : K) (v : V) (m : t) : t :=
  match m with
  | [] => [(k, v)]
  | (k', v') :: m' =>
      if decide (k' = k) then (k, v) :: m' else (k', v') :: set k v m'
  end.

Definition delete (k : K) (m : list (K * V)) : t :=
  filter (λ kv, kv.1 ≠ k) m.

Definition size (m : t) : nat := length m.

Definition keys (m : t) : list K := m.*1.

(** [m.keys().next().value]; [None] stands for [undefined]. *)
Definition first_key (m : t) : option K := head (keys m).

(** Keys are unique in every map the operations build. *)
Definition wf (m : t) : Prop := NoDup (keys m).

End Ordered.
Global Arguments t : clear implicits.
End JsMap.

(* ===================================================================== *)
(** ** The result cache                                                  *)
(* ===================================================================== *)

Module Cache.

(** [const CACHE_TTL = 60000; // ms] *)
Definition CACHE_TTL : Z := 60000.

(** [if (queryCache.size > 200)] *)
Definition MAX_ENTRIES : nat := 200.

Section Cache.
(** The cached response payloads. *)
Context {D : Type}.

(** [{ data, timestamp: Date.now() }] *)
Record entry : Type := Entry { data : D; timestamp : Z }.

(** [const queryCache = new Map();] *)
Definition queryCache : Type := JsMap.t string entry.

(** [getCachedQuery(key)] at time [now]: the value read ([None] is
    [null]) and the cache afterwards. *)
Definition getCachedQuery (key : string) (now : Z) (c : queryCache)
  : option D * queryCache :=
  match JsMap.get key c with
  | None => (None, c)
  | Some cached =>
      if decide (now - timestamp cached < CACHE_TTL)
      then (Some (data cached), c)
      else (None, JsMap.delete key c)
  end.

(** [setCachedQuery(key, data)] at time [now]. *)
Definition setCachedQuery (key : string) (d : D) (now : Z) (c : queryCache)
  : queryCache :=
  let c1 := JsMap.set key (Entry d now) c in
  if decide (MAX_ENTRIES < JsMap.size c1)%nat then
    match JsMap.first_key c1 with
    | Some firstKey => JsMap.delete firstKey c1
    | None => c1
    end
  else c1.

(** [queryCache.delete(getCacheKey(..))], the invalidation the detail
    routes perform. *)
Definition invalidate (key : string) (c : queryCache) : queryCache :=
  JsMap.delete key c.

(** The caches the program can hold: it starts empty and is only touched
    through the three operations above. *)
Inductive reachable : queryCache → Prop :=
| reach_empty : reachable JsMap.empty
| reach_get key now c : reachable c → reachable (getCachedQuery key now c).2
| reach_set key d now c : reachable c → reachable (setCachedQuery key d now c)
| reach_invalidate key c : reachable c → reachable (invalidate key c).

End Cache.
Global Arguments entry : clear implicits.
Global Arguments queryCache : clear implicits.
End Cache.

(* ===================================================================== *)
(** ** JavaScript values and built-ins the router relies on              *)
(* ===================================================================== *)

Module Js.

(** What [JSON.parse] yields. *)
Inductive json : Type :=
| JNull
| JBool (b : bool)
| JNum (n : Z)
| JStr (s : string)
| JArr (items : list json)
| JObj (fields : list (string * json)).

(** A value that may be [undefined] ([None]). *)
Definition value : Type := option json.

(** Truthiness of a string that may be [undefined]: only a non-empty
    string is truthy. *)
Definition truthy_str (s : option string) : bool :=
  match s with
  | Some (String _ _) => true
  | _ => false
  end.

(** Truthiness of a number that may be [undefined] or [null]. *)
Definition truthy_num (n : option Z) : bool :=
  match n with
  | Some 0 | None => false
  | Some _ => true
  end.

Definition truthy (v : value) : bool :=
  match v with
  | None | Some JNull => false
  | Some (JBool b) => b
  | Some (JNum n) => negb (n =? 0)
  | Some (JStr s) => truthy_str (Some s)
  | Some (JArr _) | Some (JObj _) => true
  end.

(** The value of the last field named [k]: [JSON.parse] keeps the last of
    several members with one name. *)
Fixpoint field (k : string) (fields : list (string * json)) : value :=
  match fields with
  | [] => None
  | (k', v) :: rest =>
      match field k rest with
      | Some later => Some later
      | None => if decide (k' = k) then Some v else None
      end
  end.

(** [v.k] for a name [k] that no built-in prototype defines; [None] as a
    result of [get_prop] is [undefined]. Reading a property of [null] or
    [undefined] throws, which callers handle before calling this. *)
Definition get_prop (k : string) (v : json) : value :=
  match v with
  | JObj fields => field k fields
  | _ => None
  end.

(** White space that [parseInt] skips (the ASCII part of it). *)
Definition is_space (c : ascii) : bool :=
  let n := nat_of_ascii c in
  (n =? 32)%nat || ((9 <=? n)%nat && (n <=? 13)%nat).

Fixpoint skip_space (s : string) : string :=
  match s with
  | String c s' => if is_space c then skip_space s' else s
  | EmptyString => s
  end.

Definition digit (c : ascii) : option Z :=
  let n := Z.of_nat (nat_of_ascii c) in
  if (48 <=? n) && (n <=? 57) then Some (n - 48) else None.

(** The value of the longest prefix of decimal digits, [acc] being the
    value read so far ([None]: no digit yet). *)
Fixpoint digits (s : string) (acc : option Z) : option Z :=
  match s with
  | String c s' =>
      match digit c with
      | Some d => digits s' (Some (10 * default 0 acc + d))
      | None => acc
      end
  | EmptyString => acc
  end.

(** [parseInt(v, 10)]; [None] is [NaN]. An absent query parameter is
    [undefined], which reads as the text "undefined" and has no digit.
    The result is the integer the digits denote, which is the number
    JavaScript returns whenever that integer is a [safe_integer] (see
    below). *)
Definition parseInt (v : option string) : option Z :=
  match v with
  | None => None
  | Some s =>
      match skip_space s with
      | String "-" s' => Z.opp <$> digits s' None
      | String "+" s' => digits s' None
      | s' => digits s' None
      end
  end.

(** [Number.MAX_SAFE_INTEGER] *)
Definition MAX_SAFE_INTEGER : Z := 2 ^ 53 - 1.

(** [Number.isSafeInteger(n)]: the integers every double holds exactly.
    On a text whose value is one of them, [parseInt] returns that
    value. *)
Definition safe_integer (n : Z) : Prop :=
  - MAX_SAFE_INTEGER ≤ n ≤ MAX_SAFE_INTEGER.

Definition digit16 (c : ascii) : option Z :=
  let n := Z.of_nat (nat_of_ascii c) in
  if (48 <=? n) && (n <=? 57) then Some (n - 48)
  else if (97 <=? n) && (n <=? 102) then Some (n - 87)
  else if (65 <=? n) && (n <=? 70) then Some (n - 55)
  else None.

(** The value of the longest prefix of hexadecimal digits. *)
Fixpoint digits16 (s : string) (acc : option Z) : option Z :=
  match s with
  | String c s' =>
      match digit16 c with
      | Some d => digits16 s' (Some (16 * default 0 acc + d))
      | None => acc
      end
  | EmptyString => acc
  end.

(** The digits after the sign when no radix is given: hexadecimal after
    a prefix [0x] or [0X], decimal otherwise. *)
Definition digits_any (s : string) : option Z :=
  match s with
  | String "0" (String "x" s') | String "0" (String "X" s') => digits16 s' None
  | _ => digits s None
  end.

(** [parseInt(v)], without a radix. *)
Definition parseInt_any (v : option string) : option Z :=
  match v with
  | None => None
  | Some s =>
      match skip_space s with
      | String "-" s' => Z.opp <$> digits_any s'
      | String "+" s' => digits_any s'
      | s' => digits_any s'
      end
  end.

(** [n || d] for a number [n] that may be [NaN]. *)
Definition or_default (n : option Z) (d : Z) : Z :=
  match n with
  | Some 0 | None => d
  | Some n => n
  end.

(** A relative index of [slice], clamped into [0 .. len]. *)
Definition clamp_index (len i : Z) : Z :=
  if i <? 0 then Z.max (len + i) 0 else Z.min i len.

(** [l.slice(start, end)] *)
Definition slice {A : Type} (l : list A) (start end_ : Z) : list A :=
  let len := Z.of_nat (length l) in
  let k := clamp_index len start in
  let final := clamp_index len end_ in
  take (Z.to_nat (final - k)) (drop (Z.to_nat k) l).

(** [Math.ceil(a / b)] for integers [a] and [b ≠ 0]. *)
Definition ceil_div (a b : Z) : Z := - ((- a) `div` b).

(** [s.split(sep)] for a one-character separator. *)
Fixpoint split (sep : ascii) (s : string) : list string :=
  match s with
  | EmptyString => [EmptyString]
  | String c s' =>
      if Ascii.eqb c sep then EmptyString :: split sep s'
      else match split sep s' with
           | w :: ws => String c w :: ws
           | [] => [String c EmptyString]
           end
  end.

(** The rest of [s] after the prefix [p], if [s] starts with [p]. *)
Fixpoint strip_prefix (p s : string) : option string :=
  match p, s with
  | EmptyString, _ => Some s
  | String a p', String b s' => if Ascii.eqb a b then strip_prefix p' s' else None
  | String _ _, EmptyString => None
  end.

(** [s.replace(pat, rep)] for a string pattern: the first occurrence only. *)
Fixpoint replace (pat rep s : string) {struct s} : string :=
  match strip_prefix pat s with
  | Some rest => rep +:+ rest
  | None =>
      match s with
      | EmptyString => EmptyString
      | String c s' => String c (replace pat rep s')
      end
  end.

(** [String(n)] for an integer: its decimal digits, which is how
    JavaScript writes every integer below 10^21 in size. *)
Definition of_int (n : Z) : string := pretty n.

Definition hex_digit (n : N) : ascii :=
  ascii_of_N (if (n <? 10)%N then 48 + n else 87 + n)%N.

Definition quote_char : ascii := ascii_of_nat 34.
Definition backslash : ascii := ascii_of_nat 92.

(** The characters [JSON.stringify] writes for one character of a string. *)
Definition escape_char (c : ascii) : string :=
  let n := N_of_ascii c in
  if (n =? 34)%N then String backslash (String quote_char EmptyString)
  else if (n =? 92)%N then String backslash (String backslash EmptyString)
  else if (n =? 8)%N then String backslash "b"
  else if (n =? 9)%N then String backslash "t"
  else if (n =? 10)%N then String backslash "n"
  else if (n =? 12)%N then String backslash "f"
  else if (n =? 13)%N then String backslash "r"
  else if (n <? 32)%N then
    String backslash
      (String "u" (String "0" (String "0"
         (String (hex_digit (n `div` 16)) (String (hex_digit (n `mod` 16)) EmptyString)))))
  else String c EmptyString.

Fixpoint escape (s : string) : string :=
  match s with
  | EmptyString => EmptyString
  | String c s' => escape_char c +:+ escape s'
  end.

(** [JSON.stringify(s)] for a string. *)
Definition stringify_str (s : string) : string :=
  String quote_char (escape s +:+ String quote_char EmptyString).

(** A property value of the objects the router serializes: a number, a
    string, or [undefined]. *)
Inductive prim : Type :=
| PUndefined
| PNum (n : Z)
| PStr (s : string)
| PBool (b : bool).

Definition stringify_prim (v : prim) : option string :=
  match v with
  | PUndefined => None
  | PNum n => Some (of_int n)
  | PStr s => Some (stringify_str s)
  | PBool b => Some (if b then "true" else "false")
  end.

(** The members [JSON.stringify] writes for an object literal, in the
    order of its properties; a property whose value is [undefined] is
    left out. *)
Definition members (props : list (string * prim)) : list string :=
  omap (λ kv, (λ v, stringify_str kv.1 +:+ ":" +:+ v) <$> stringify_prim kv.2) props.

Fixpoint join (sep : string) (parts : list string) : string :=
  match parts with
  | [] => EmptyString
  | [x] => x
  | x :: rest => x +:+ sep +:+ join sep rest
  end.

(** [JSON.stringify(obj)] for an object of such properties. *)
Definition stringify (props : list (string * prim)) : string :=
  "{" +:+ join "," (members props) +:+ "}".

End Js.

(* ===================================================================== *)
(** ** Outbound HTTP: [callFetch]                                        *)
(* ===================================================================== *)

Module Net.

(** The search event posted to the recommender service. *)
Record log_payload : Type := LogPayload {
  user_id : option Z;
  query : string;
  user_agent : option string;
  client_ip : option string;
  timestamp : Z
}.

(** An address: the text of the endpoint and the search parameters
    appended to it, in order. *)
Record url : Type := Url { base : string; searchParams : list (string * string) }.

(** [options] of [callFetch]; an absent member is [None]. *)
Record options : Type := Options { method : option string; timeout : option Z }.

(** What [fetchImpl] is called with. [f_signal] is the delay after which
    the abort signal fires, [None] when no signal is passed. *)
Record fetch_request : Type := FetchRequest {
  f_url : url;
  f_method : string;
  f_body : option log_payload;
  f_signal : option Z
}.

(** How the remote end answers one call: the promise rejects (network
    error, or the abort signal fired), or a response arrives whose text
    may fail to be read ([None]). *)
Inductive fetch_outcome : Type :=
| Rejects (message : string)
| Responds (status : Z) (text : option string).

(** The process the router runs in. The number given to [fetchLib] counts
    the calls made before this one, so that a remote end may answer a
    retry differently. *)
Record runtime : Type := Runtime {
  fetchLib : option (nat → fetch_request → fetch_outcome);
  abortController : bool;
  env_RECOMMENDER_URL : option string;
  URL_valid : string → bool;
  JSON_parse : string → option Js.json
}.

(** [process.env.RECOMMENDER_URL || 'http://127.0.0.1:8000/api/interaction/search'] *)
Definition RECOMMENDER_URL (rt : runtime) : string :=
  if Js.truthy_str (env_RECOMMENDER_URL rt)
  then default EmptyString (env_RECOMMENDER_URL rt)
  else "http://127.0.0.1:8000/api/interaction/search".

(** The value [callFetch] resolves to; absent members are [None]. *)
Record fetch_result : Type := FetchResult {
  ok : bool;
  status : option Z;
  body : option string;
  error : option string
}.

(** [res.ok] *)
Definition res_ok (st : Z) : bool := (200 <=? st) && (st <=? 299).

(** The request [callFetch] hands to [fetchImpl]: defaults [POST] and
    3000 ms; the abort timer is armed only when an [AbortController] can
    be built. *)
Definition request_of (rt : runtime) (u : url) (b : option log_payload)
    (o : options) : fetch_request :=
  {| f_url := u;
     f_method := default "POST" (method o);
     f_body := b;
     f_signal := if abortController rt then Some (default 3000 (timeout o)) else None |}.

(** [callFetch(url, body, options)], as the [n]-th call (from 0). *)
Definition callFetch (rt : runtime) (n : nat) (u : url)
    (b : option log_payload) (o : options) : fetch_result :=
  match fetchLib rt with
  | None => {| ok := false; status := None; body := None; error := Some "no_fetch" |}
  | Some fetchImpl =>
      match fetchImpl n (request_of rt u b o) with
      | Rejects msg =>
          {| ok := false; status := None; body := None; error := Some msg |}
      | Responds st text =>
          {| ok := res_ok st; status := Some st;
             body := Some (default EmptyString text); error := None |}
      end
  end.

End Net.

(* ===================================================================== *)
(** ** The search-event logger                                           *)
(* ===================================================================== *)

Module Logger.

(** [const LOG_DEDUPE_TTL = 30 * 1000; // 30s] *)
Definition LOG_DEDUPE_TTL : Z := 30 * 1000.

(** [makeDedupeKey(userId, query)]: [`${userId || 'anon'}::${query}`] *)
Definition makeDedupeKey (userId : option Z) (query : string) : string :=
  (if Js.truthy_num userId then Js.of_int (default 0 userId) else "anon")
    +:+ "::" +:+ query.

(** [meta] of [logSearchToRecommender] *)
Record meta : Type := Meta { userAgent : option string; ip : option string }.

(** What a call leaves behind, in the order it happens. *)
Inductive event : Type :=
| EvRecord (key : string) (ts : Z)
| EvCallFetch (req : Net.fetch_request)
| EvWarn
| EvTimer (delay : Z).

(** [const recentSearchLog = new Map(); // key => timestamp], and the
    events so far. *)
Record state : Type := State {
  recentSearchLog : gmap string Z;
  trace : list event
}.

Definition is_call (e : event) : bool :=
  match e with EvCallFetch _ => true | _ => false end.

(** The number of [callFetch] calls in a trace. *)
Definition calls (tr : list event) : nat := length (List.filter is_call tr).

(** The value the logger resolves to; absent members are [false]/[None]. *)
Record log_result : Type := LogResult {
  l_ok : bool;
  l_skipped : bool;
  l_retried : bool;
  l_error : option string
}.

(** Computations over the logger's state. *)
Definition M (A : Type) : Type := state → A * state.

Definition ret {A : Type} (a : A) : M A := λ s, (a, s).

Definition bind {A B : Type} (m : M A) (k : A → M B) : M B :=
  λ s, let '(a, s') := m s in k a s'.

Declare Scope logger_scope.
Delimit Scope logger_scope with logger.
Notation "'let*' x ':=' m 'in' k" := (bind m (λ x, k))
  (at level 10, x name, m at level 100, k at level 200) : logger_scope.
Local Open Scope logger_scope.

(** [recentSearchLog.get(key)] *)
Definition log_get (key : string) : M (option Z) :=
  λ s, (recentSearchLog s !! key, s).

(** [recentSearchLog.set(key, ts)] *)
Definition log_set (key : string) (ts : Z) : M unit :=
  λ s, (tt, {| recentSearchLog := <[key := ts]> (recentSearchLog s);
               trace := trace s ++ [EvRecord key ts] |}).

(** [await callFetch(url, body, options)] *)
Definition callFetch (rt : Net.runtime) (u : Net.url)
    (b : option Net.log_payload) (o : Net.options) : M Net.fetch_result :=
  λ s, (Net.callFetch rt (calls (trace s)) u b o,
        {| recentSearchLog := recentSearchLog s;
           trace := trace s ++ [EvCallFetch (Net.request_of rt u b o)] |}).

Definition emit (e : event) : M unit :=
  λ s, (tt, {| recentSearchLog := recentSearchLog s; trace := trace s ++ [e] |}).

(** [a || b] on strings that may be absent. *)
Definition or_str (a b : option string) : option string :=
  if Js.truthy_str a then a else b.

(** The body of the [try] block of [logSearchToRecommender]. Nothing in
    it throws: [callFetch] catches what [fetchImpl] throws. *)
Definition attempt (rt : Net.runtime) (userId : option Z) (query : string)
    (m : meta) (now : Z) : M log_result :=
  let dedupeKey := makeDedupeKey userId query in
  let* last := log_get dedupeKey in
  if Js.truthy_num last && bool_decide (now - default 0 last < LOG_DEDUPE_TTL) then
    ret {| l_ok := true; l_skipped := true; l_retried := false; l_error := None |}
  else
    let* _ := log_set dedupeKey now in
    let payload :=
      {| Net.user_id := if Js.truthy_num userId then userId else None;
         Net.query := query;
         Net.user_agent := or_str (userAgent m) None;
         Net.client_ip := or_str (ip m) None;
         Net.timestamp := now |} in
    let target := Net.Url (Net.RECOMMENDER_URL rt) [] in
    let opts := Net.Options None (Some 3000) in
    let* result := callFetch rt target (Some payload) opts in
    if Net.ok result then
      ret {| l_ok := true; l_skipped := false; l_retried := false; l_error := None |}
    else
      let* retry := callFetch rt target (Some payload) opts in
      if Net.ok retry then
        ret {| l_ok := true; l_skipped := false; l_retried := true; l_error := None |}
      else
        let* _ := emit EvWarn in
        ret {| l_ok := false; l_skipped := false; l_retried := false;
               l_error := or_str (Net.error result)
                            (or_str (Net.body result) (Some "unknown")) |}.

(** [logSearchToRecommender(userId, query, meta)] called at time [now]:
    the [try] block, then the [finally] block, which schedules the
    clean-up of old entries [LOG_DEDUPE_TTL * 2] later and, the timer
    having an [unref] member, an empty timer. *)
Definition logSearchToRecommender (rt : Net.runtime) (userId : option Z)
    (query : string) (m : meta) (now : Z) : M log_result :=
  let* r := attempt rt userId query m now in
  let* _ := emit (EvTimer (LOG_DEDUPE_TTL * 2)) in
  let* _ := emit (EvTimer 0) in
  ret r.

(** The timer's callback, run at time [now]: entries older than
    [LOG_DEDUPE_TTL * 4] go. *)
Definition cleanup (now : Z) : M unit :=
  λ s, (tt, {| recentSearchLog :=
                 filter (λ kv, ¬ (kv.2 < now - LOG_DEDUPE_TTL * 4)) (recentSearchLog s);
               trace := trace s |}).

End Logger.

(* ===================================================================== *)
(** ** The recommendation fetcher                                        *)
(* ===================================================================== *)

Module Recommender.

(** How a piece of code ends: with a value, or by throwing. *)
Inductive completion (A : Type) : Type :=
| Returns (a : A)
| Throws (message : string).
Global Arguments Returns {A} a.
Global Arguments Throws {A} message.

Definition and_then {A B : Type} (c : completion A) (k : A → completion B)
  : completion B :=
  match c with
  | Returns a => k a
  | Throws m => Throws m
  end.

(** [try { body } catch (e) { handler }] *)
Definition try_catch {A : Type} (body : completion A)
    (handler : string → completion A) : completion A :=
  match body with
  | Returns a => Returns a
  | Throws m => handler m
  end.

(** [{ method: 'GET', timeout: 5000 }] *)
Definition recommend_options : Net.options :=
  Net.Options (Some "GET") (Some 5000).

(** [new URL(RECOMMENDER_URL.replace('/interaction/search', '/recommend'))]
    with [user_id] (when [userId] is truthy) and [top_n] appended. *)
Definition recommend_url (rt : Net.runtime) (userId : option Z) (limit : Z)
  : completion Net.url :=
  let text := Js.replace "/interaction/search" "/recommend" (Net.RECOMMENDER_URL rt) in
  if Net.URL_valid rt text then
    Returns
      (Net.Url text
         ((if Js.truthy_num userId
           then [("user_id", Js.of_int (default 0 userId))] else [])
          ++ [("top_n", Js.of_int limit)]))
  else Throws "Invalid URL".

(** [r => r.paper_id]: reading a member of [null] throws. *)
Definition paper_id_of (r : Js.json) : completion Js.value :=
  match r with
  | Js.JNull => Throws "Cannot read properties of null"
  | _ => Returns (Js.get_prop "paper_id" r)
  end.

Fixpoint map_completion {A B : Type} (f : A → completion B) (l : list A)
  : completion (list B) :=
  match l with
  | [] => Returns []
  | x :: rest =>
      and_then (f x) (λ y, and_then (map_completion f rest) (λ ys, Returns (y :: ys)))
  end.

(** [recommendations.map(r => r.paper_id)]: only an array has [map]. *)
Definition paper_ids (recommendations : Js.json) : completion (list Js.value) :=
  match recommendations with
  | Js.JArr items => map_completion paper_id_of items
  | _ => Throws "data.recommendations.map is not a function"
  end.

(** The body of the inner [try]: [Some ids] when it returns from the
    function, [None] when control falls out of it. *)
Definition parse_body (rt : Net.runtime) (text : string)
  : completion (option (list Js.value)) :=
  match Net.JSON_parse rt text with
  | None => Throws "Unexpected token"
  | Some data =>
      if Js.truthy (Some data) then
        match Js.get_prop "recommendations" data with
        | Some recs =>
            if Js.truthy (Some recs)
            then and_then (paper_ids recs) (λ ids, Returns (Some ids))
            else Returns None
        | None => Returns None
        end
      else Returns None
  end.

(** [getRecommendations(userId, limit)] *)
Definition getRecommendations (rt : Net.runtime) (userId : option Z) (limit : Z)
  : completion (list Js.value) :=
  try_catch
    (and_then (recommend_url rt userId limit) (λ u,
       let result := Net.callFetch rt 0 u None recommend_options in
       if negb (Net.ok result) then Returns []
       else
         and_then
           (try_catch (parse_body rt (default EmptyString (Net.body result)))
                      (λ _, Returns None))
           (λ returned, Returns (default [] returned))))
    (λ _, Returns []).

(** The request the fetcher sends, when the address is accepted. *)
Definition recommend_request (rt : Net.runtime) (userId : option Z) (limit : Z)
  : option Net.fetch_request :=
  match recommend_url rt userId limit with
  | Returns u => Some (Net.request_of rt u None recommend_options)
  | Throws _ => None
  end.

End Recommender.

(* ===================================================================== *)
(** ** The feed composer: the listing and search routes                  *)
(* ===================================================================== *)

Module Feed.

(** A row of the listing queries: [Paper_ID], which the router reads, and
    some of the columns it only passes on. *)
Record paper : Type := Paper {
  Paper_ID : Z;
  Title : string;
  Publication_Date : string;
  Field_ID : option Z
}.

Record pagination : Type := Pagination {
  page : Z;
  limit : Z;
  total : Z;
  pages : Z
}.

(** The object given to [res.json] on success; [isRecommendation] is
    [None] where the object has no such member. *)
Record body : Type := Body {
  success : bool;
  message : string;
  papers : list paper;
  paging : pagination;
  isRecommendation : option bool
}.

Inductive response : Type :=
| Page (b : body)
| Failure (code : Z) (message : string).

(** The HTTP status of a response: [res.json] alone answers 200. *)
Definition status (r : response) : Z :=
  match r with
  | Page _ => 200
  | Failure code _ => code
  end.

(** The claims of a verified token. *)
Record jwt_payload : Type := JwtPayload { userId : option Z }.

(** The parts of a request that the two routes read. [user] is
    [req.user], which only the [authenticateToken] middleware sets. *)
Record request : Type := Request {
  q_page : option string;
  q_limit : option string;
  q_fieldId : option string;
  q_search : option string;
  q_q : option string;
  user : option jwt_payload;
  h_authorization : option string;
  h_user_agent : option string;
  req_ip : option string
}.

(** The collaborators of the routes: the process, token verification
    ([None]: [jwt.verify] throws), and the data store ([None]: the query
    throws). The store's queries are given by what the router binds to
    them: the id list; field filter, search text, offset and limit. *)
Record env : Type := Env {
  rt : Net.runtime;
  jwt_verify : string → option jwt_payload;
  getPool : bool;
  query_by_ids : list Js.value → option (list paper);
  query_page : option string → option string → Z → Z → option (list paper);
  query_count : option string → option string → option Z;
  query_search : string → Z → Z → option (list paper);
  query_search_count : string → option Z
}.

(** A detached call of the logger: the arguments it was started with. *)
Record log_task : Type := LogTask {
  task_userId : option Z;
  task_query : string;
  task_meta : Logger.meta
}.

(** What handling one request yields. *)
Record outcome : Type := Outcome {
  response_of : response;
  cache_of : Cache.queryCache body;
  spawned : list log_task
}.

Definition opt_str (s : option string) : Js.prim :=
  match s with
  | Some s => Js.PStr s
  | None => Js.PUndefined
  end.

(** [getCacheKey(params)] *)
Definition getCacheKey (params : list (string * Js.prim)) : string :=
  Js.stringify params.

(** [{ page, limit, fieldId, search,
       userId: req.user ? req.user.userId : 'anon' }] *)
Definition listing_params (page limit : Z) (fieldId search : option string)
    (u : option jwt_payload) : list (string * Js.prim) :=
  [ ("page", Js.PNum page);
    ("limit", Js.PNum limit);
    ("fieldId", opt_str fieldId);
    ("search", opt_str search);
    ("userId", match u with
               | Some p => match userId p with
                           | Some n => Js.PNum n
                           | None => Js.PUndefined
                           end
               | None => Js.PStr "anon"
               end) ].

(** [decoded && decoded.userId] kept only when truthy. *)
Definition decoded_user (d : option jwt_payload) : option Z :=
  match d with
  | Some p => if Js.truthy_num (userId p) then userId p else None
  | None => None
  end.

(** [authHeader.split(' ')[1]] *)
Definition bearer_token (authHeader : string) : option string :=
  Js.split " " authHeader !! 1%nat.

(** The user the logger is told about: the token is verified only when
    the header and the token are truthy. *)
Definition user_for_log (e : env) (req : request) : option Z :=
  if Js.truthy_str (h_authorization req) then
    match bearer_token (default EmptyString (h_authorization req)) with
    | Some token =>
        if Js.truthy_str (Some token) then decoded_user (jwt_verify e token) else None
    | None => None
    end
  else None.

(** The user the recommender is asked about: here the token is handed to
    [jwt.verify] as it is, and [jwt.verify(undefined)] throws. *)
Definition user_for_feed (e : env) (req : request) : option Z :=
  if Js.truthy_str (h_authorization req) then
    match bearer_token (default EmptyString (h_authorization req)) with
    | Some token => decoded_user (jwt_verify e token)
    | None => None
    end
  else None.

(** [recommendedPaperIds] after the "For You" block: the ids fetched when
    the request has neither search text nor field filter. The flag
    [isRecommendation] is set there exactly when this list is not empty. *)
Definition recommendedPaperIds (e : env) (req : request) : list Js.value :=
  if negb (Js.truthy_str (q_search req)) && negb (Js.truthy_str (q_fieldId req)) then
    match Recommender.getRecommendations (rt e) (user_for_feed e req) 50 with
    | Recommender.Returns recIds => recIds
    | Recommender.Throws _ => []
    end
  else [].

(** The query the handler goes on to run. *)
Inductive plan : Type :=
| Standard
| ByIds (pagedIds : list Js.value)
| EndOfFeed.

(** The branch on [isRecommendation] that slices the ranked ids. *)
Definition choose_plan (recs : list Js.value) (page limit : Z) : plan :=
  let offset := (page - 1) * limit in
  if bool_decide (0 < length recs)%nat then
    let pagedIds := Js.slice recs offset (offset + limit) in
    if bool_decide (length pagedIds = 0%nat) then
      if bool_decide (page = 1) then Standard else EndOfFeed
    else ByIds pagedIds
  else Standard.

(** The value of [isRecommendation] when the handler answers. *)
Definition personalized (p : plan) : bool :=
  match p with
  | Standard => false
  | ByIds _ | EndOfFeed => true
  end.

(** [new Map(papers.map(p => [p.Paper_ID, p]))] *)
Definition paperMap (rows : list paper) : JsMap.t Z paper :=
  foldl (λ m p, JsMap.set (Paper_ID p) p m) JsMap.empty rows.

(** [paperMap.get(id)]: keys are numbers, so only a number finds one. *)
Definition paperMap_get (m : JsMap.t Z paper) (id : Js.value) : option paper :=
  match id with
  | Some (Js.JNum n) => JsMap.get n m
  | _ => None
  end.

(** [pagedIds.map(id => paperMap.get(id)).filter(p => p)] *)
Definition reorder (pagedIds : list Js.value) (rows : list paper) : list paper :=
  omap (paperMap_get (paperMap rows)) pagedIds.

(** A filter is bound to the query only when its text is truthy. *)
Definition bound (s : option string) : option string :=
  if Js.truthy_str s then s else None.

Definition failure_papers : response := Failure 500 "Failed to retrieve papers".

(** [page] and [limit] as the routes read them. *)
Definition page_of (req : request) : Z := Js.or_default (Js.parseInt (q_page req)) 1.
Definition limit_of (req : request) : Z := Js.or_default (Js.parseInt (q_limit req)) 12.

(** The cache key of a listing request. *)
Definition listing_key (req : request) : string :=
  getCacheKey
    (listing_params (page_of req) (limit_of req) (q_fieldId req) (q_search req)
       (user req)).

(** The early answer at the end of the ranked list: no query is made and
    the object has no [isRecommendation] member. *)
Definition end_of_feed (recs : list Js.value) (page limit : Z) : body :=
  let n := Z.of_nat (length recs) in
  Body true "Papers retrieved successfully" []
    (Pagination page limit n (Js.ceil_div n limit)) None.

(** The page of ranked papers: the rows fetched for the slice, put back
    in the order of the slice; [None] when the query throws. *)
Definition personalized_page (e : env) (recs : list Js.value) (page limit : Z)
    (pagedIds : list Js.value) : option body :=
  let offset := (page - 1) * limit in
  match query_by_ids e pagedIds with
  | None => None
  | Some rows =>
      let n := Z.of_nat (length recs) in
      Some (Body true "Recommended papers retrieved"
              (reorder (Js.slice recs offset (offset + limit)) rows)
              (Pagination page limit n (Js.ceil_div n limit))
              (Some true))
  end.

(** The standard page: the filtered rows, newest first, as the store
    returns them for the offset and limit, and their count; [None] when
    either query throws. *)
Definition standard_page (e : env) (fieldId search : option string)
    (page limit : Z) : option body :=
  let offset := (page - 1) * limit in
  match query_page e (bound fieldId) (bound search) offset limit with
  | None => None
  | Some rows =>
      match query_count e (bound fieldId) (bound search) with
      | None => None
      | Some n =>
          Some (Body true "Papers retrieved successfully" rows
                  (Pagination page limit n (Js.ceil_div n limit))
                  (Some false))
      end
  end.

(** The answer composed on a cache miss, once the pool is there. *)
Definition compose (e : env) (req : request) : option body :=
  let page := page_of req in
  let limit := limit_of req in
  let recs := recommendedPaperIds e req in
  match choose_plan recs page limit with
  | EndOfFeed => Some (end_of_feed recs page limit)
  | ByIds pagedIds => personalized_page e recs page limit pagedIds
  | Standard => standard_page e (q_fieldId req) (q_search req) page limit
  end.

(** The logger call the listing route detaches when the request has
    search text. *)
Definition listing_tasks (e : env) (req : request) : list log_task :=
  if Js.truthy_str (q_search req)
  then [LogTask (user_for_log e req) (default EmptyString (q_search req))
          (Logger.Meta (h_user_agent req) (req_ip req))]
  else [].

(** [router.get('/')]: the request arrives at [now]; the answer is
    composed and cached at [later]. *)
Definition get_papers (e : env) (req : request) (now later : Z)
    (cache : Cache.queryCache body) : outcome :=
  let cacheKey := listing_key req in
  let '(cached, cache1) := Cache.getCachedQuery cacheKey now cache in
  match cached with
  | Some b => Outcome (Page b) cache1 []
  | None =>
      let tasks := listing_tasks e req in
      if negb (getPool e) then Outcome failure_papers cache1 tasks
      else
        match compose e req with
        | None => Outcome failure_papers cache1 tasks
        | Some b =>
            Outcome (Page b) (Cache.setCachedQuery cacheKey b later cache1) tasks
        end
  end.

(** [{ search: query, page, limit }] *)
Definition search_params (query : string) (page limit : Z)
  : list (string * Js.prim) :=
  [ ("search", Js.PStr query); ("page", Js.PNum page); ("limit", Js.PNum limit) ].

(** [router.get('/search/query')] *)
Definition get_search_query (e : env) (req : request) (now later : Z)
    (cache : Cache.queryCache body) : outcome :=
  let page := page_of req in
  let limit := limit_of req in
  let offset := (page - 1) * limit in
  if negb (Js.truthy_str (q_q req)) then
    Outcome (Failure 400 "Search query is required") cache []
  else
    let query := default EmptyString (q_q req) in
    let tasks := [LogTask (user_for_log e req) query
                    (Logger.Meta (h_user_agent req) (req_ip req))] in
    let cacheKey := getCacheKey (search_params query page limit) in
    let '(cached, cache1) := Cache.getCachedQuery cacheKey now cache in
    match cached with
    | Some b => Outcome (Page b) cache1 tasks
    | None =>
        if negb (getPool e) then Outcome (Failure 500 "Search failed") cache1 tasks
        else
          match query_search e query offset limit with
          | None => Outcome (Failure 500 "Search failed") cache1 tasks
          | Some rows =>
              match query_search_count e query with
              | None => Outcome (Failure 500 "Search failed") cache1 tasks
              | Some n =>
                  let b := Body true "Search completed successfully" rows
                             (Pagination page limit n (Js.ceil_div n limit)) None in
                  Outcome (Page b) (Cache.setCachedQuery cacheKey b later cache1) tasks
              end
          end
    end.

(** The process state the routes share. *)
Record server : Type := Server {
  queryCache : Cache.queryCache body;
  logger : Logger.state
}.

(** The detached logger calls of a request, each started at [now]. *)
Fixpoint run_tasks (r : Net.runtime) (tasks : list log_task) (now : Z)
    (s : Logger.state) : Logger.state :=
  match tasks with
  | [] => s
  | t :: rest =>
      run_tasks r rest now
        (Logger.logSearchToRecommender r (task_userId t) (task_query t)
           (task_meta t) now s).2
  end.

(** One request served by a route: the answer and the state afterwards.
    The answer is the route's own; the logger calls it detached run
    against the logger's state only. *)
Definition serve
    (route : env → request → Z → Z → Cache.queryCache body → outcome)
    (e : env) (req : request) (now later : Z) (sv : server)
  : response * server :=
  let o := route e req now later (queryCache sv) in
  (response_of o, Server (cache_of o) (run_tasks (rt e) (spawned o) now (logger sv))).

End Feed.

(* ===================================================================== *)
(** ** routes/authors.js: the guard of the sibling listing route        *)
(* ===================================================================== *)

Module Authors.

(** [let { page = 1, limit = 12 } = req.query; page = parseInt(page);
    limit = parseInt(limit);]: the default replaces an absent parameter
    only. *)
Definition page_of (q_page : option string) : option Z :=
  match q_page with
  | None => Some 1
  | Some _ => Js.parseInt_any q_page
  end.

Definition limit_of (q_limit : option string) : option Z :=
  match q_limit with
  | None => Some 12
  | Some _ => Js.parseInt_any q_limit
  end.

(** [a < b] and [a > b] for a number [a] that may be [NaN]. *)
Definition lt (a : option Z) (b : Z) : bool :=
  match a with Some a => a <? b | None => false end.
Definition gt (a : option Z) (b : Z) : bool :=
  match a with Some a => b <? a | None => false end.

(** [if (page < 1 || limit < 1 || limit > 100) return res.status(400)...] *)
Definition refuses (q_page q_limit : option string) : bool :=
  lt (page_of q_page) 1 || lt (limit_of q_limit) 1 || gt (limit_of q_limit) 100.

End Authors.

(* ===================================================================== *)
(** ** routes/fields.js: the guard of its two listing routes            *)
(* ===================================================================== *)

Module Fields.

(** [parseInt(req.query.page) || 1] and [parseInt(req.query.limit) || 10] *)
Definition page_of (q_page : option string) : Z :=
  Js.or_default (Js.parseInt_any q_page) 1.

Definition limit_of (q_limit : option string) : Z :=
  Js.or_default (Js.parseInt_any q_limit) 10.

(** [if (page < 1 || limit < 1 || limit > 100) return res.status(400)...] *)
Definition refuses (q_page q_limit : option string) : bool :=
  (page_of q_page <? 1) || (limit_of q_limit <? 1) || (100 <? limit_of q_limit).

End Fields.

(* ===================================================================== *)
(** * Properties                                                         *)
(* ===================================================================== *)

(** ** The ordered map *)

Module JsMapFacts.
Section Ordered.
Context {K V : Type} `{EqDecision K}.
Implicit Types (k : K) (v : V) (m : JsMap.t K V).

Lemma wf_empty : JsMap.wf (JsMap.empty (K:=K) (V:=V)).
Proof. constructor. Qed.

Lemma get_None_notin k m : JsMap.get k m = None ↔ k ∉ JsMap.keys m.
Proof.
  induction m as [|[k' v] m IH]; simpl.
  - split; [intros _; apply not_elem_of_nil | done].
  - destruct (decide (k' = k)) as [->|Hne].
    + split; [done | intros H; exfalso; apply H; left].
    + rewrite IH. unfold JsMap.keys. simpl. rewrite not_elem_of_cons.
      split; [intros H; split; [congruence | done] | by intros [_ H]].
Qed.

Lemma keys_set_old k v m :
  JsMap.get k m ≠ None → JsMap.keys (JsMap.set k v m) = JsMap.keys m.
Proof.
  unfold JsMap.keys. induction m as [|[k' v'] m IH]; simpl; [done|].
  destruct (decide (k' = k)) as [->|Hne]; [done|].
  intros H. rewrite fmap_cons. f_equal. by apply IH.
Qed.

Lemma set_new k v m : JsMap.get k m = None → JsMap.set k v m = m ++ [(k, v)].
Proof.
  induction m as [|[k' v'] m IH]; simpl; [done|].
  destruct (decide (k' = k)); [done|]. intros H. by rewrite IH.
Qed.

Lemma size_set_old k v m :
  JsMap.get k m ≠ None → JsMap.size (JsMap.set k v m) = JsMap.size m.
Proof.
  intros H. unfold JsMap.size. rewrite <- (length_fmap fst (JsMap.set k v m)).
  fold (JsMap.keys (JsMap.set k v m)). rewrite keys_set_old by done.
  unfold JsMap.keys. by rewrite length_fmap.
Qed.

Lemma size_set_new k v m :
  JsMap.get k m = None → JsMap.size (JsMap.set k v m) = S (JsMap.size m).
Proof.
  intros H. rewrite set_new by done. unfold JsMap.size.
  rewrite length_app. simpl. lia.
Qed.

Lemma wf_set k v m : JsMap.wf m → JsMap.wf (JsMap.set k v m).
Proof.
  intros Hwf. destruct (JsMap.get k m) eqn:Hg.
  - unfold JsMap.wf. rewrite keys_set_old; [done | by rewrite Hg].
  - rewrite set_new by done. unfold JsMap.wf, JsMap.keys. rewrite fmap_app. simpl.
    apply NoDup_app. split; [done|]. split.
    + intros x Hx Hx'. apply list_elem_of_singleton in Hx'. subst x.
      by apply get_None_notin in Hg.
    + apply NoDup_singleton.
Qed.

Lemma keys_delete k m :
  JsMap.keys (JsMap.delete k m) = filter (λ k', k' ≠ k) (JsMap.keys m).
Proof.
  unfold JsMap.keys, JsMap.delete. induction m as [|[k' v] m IH]; [done|].
  rewrite fmap_cons, !filter_cons. cbn [fst].
  destruct (decide (k' ≠ k)); [rewrite fmap_cons; f_equal|]; apply IH.
Qed.

Lemma wf_delete k m : JsMap.wf m → JsMap.wf (JsMap.delete k m).
Proof. unfold JsMap.wf. rewrite keys_delete. apply NoDup_filter. Qed.

Lemma size_delete_le k m : (JsMap.size (JsMap.delete k m) ≤ JsMap.size m)%nat.
Proof. unfold JsMap.size, JsMap.delete. apply length_filter. Qed.

(** In a well-formed map, deleting the first key removes the head only. *)
Lemma delete_first k v m :
  JsMap.wf ((k, v) :: m) → JsMap.delete k ((k, v) :: m) = m.
Proof.
  unfold JsMap.wf, JsMap.keys, JsMap.delete. simpl. intros Hnd.
  apply NoDup_cons in Hnd as [Hnotin _].
  rewrite filter_cons. simpl. destruct (decide (k ≠ k)) as [|_]; [done|].
  induction m as [|[k' v'] m IH]; [done|].
  rewrite filter_cons. simpl in *. apply not_elem_of_cons in Hnotin as [Hne Hn].
  destruct (decide (k' ≠ k)); [|done]. by rewrite IH.
Qed.

Lemma get_set_eq k v m : JsMap.get k (JsMap.set k v m) = Some v.
Proof.
  induction m as [|[k' v'] m IH]; simpl.
  - by destruct (decide (k = k)).
  - destruct (decide (k' = k)) as [->|Hne]; simpl.
    + by destruct (decide (k = k)).
    + by destruct (decide (k' = k)).
Qed.

Lemma get_set_ne k k' v m :
  k ≠ k' → JsMap.get k' (JsMap.set k v m) = JsMap.get k' m.
Proof.
  intros Hne. induction m as [|[k0 v0] m IH]; simpl.
  - by destruct (decide (k = k')).
  - destruct (decide (k0 = k)) as [->|Hne0]; simpl.
    + destruct (decide (k = k')); done.
    + destruct (decide (k0 = k')); done.
Qed.

End Ordered.
End JsMapFacts.

(** ** The result cache *)

Module CacheFacts.
Import Cache.
Section Cache.
Context {D : Type}.
Implicit Types (c : queryCache D) (key : string) (d : D) (now : Z).

Lemma setCachedQuery_cases key d now c :
  JsMap.wf c → (JsMap.size c ≤ MAX_ENTRIES)%nat →
  (JsMap.get key c = None ∧ JsMap.size c = MAX_ENTRIES ∧
     ∃ oldest rest, c = oldest :: rest ∧
       setCachedQuery key d now c = rest ++ [(key, Entry d now)])
  ∨ (¬ (JsMap.get key c = None ∧ JsMap.size c = MAX_ENTRIES) ∧
     setCachedQuery key d now c = JsMap.set key (Entry d now) c ∧
     (JsMap.size (JsMap.set key (Entry d now) c) ≤ MAX_ENTRIES)%nat).
Proof.
  intros Hwf Hsz. unfold setCachedQuery. simpl.
  destruct (JsMap.get key c) eqn:Hg.
  - right. assert (Hn : JsMap.get key c ≠ None) by (by rewrite Hg).
    rewrite (JsMapFacts.size_set_old _ _ _ Hn).
    destruct (decide _); [lia|].
    split; [|split]; [intros [? _]; congruence | done | lia].
  - rewrite (JsMapFacts.size_set_new _ _ _ Hg).
    destruct (decide (MAX_ENTRIES < S (JsMap.size c))%nat) as [Hbig|Hsmall].
    + left. split; [done|]. split; [lia|].
      destruct c as [|[k0 e0] rest]; [unfold MAX_ENTRIES in *; simpl in Hbig; lia|].
      exists (k0, e0), rest. split; [done|].
      pose proof (JsMapFacts.wf_set key (Entry d now) _ Hwf) as Hwf'.
      rewrite (JsMapFacts.set_new _ _ _ Hg) in *.
      simpl. simpl in Hwf'. by rewrite (JsMapFacts.delete_first _ _ _ Hwf').
    + right. split; [|split]; [lia | done | lia].
Qed.

Lemma setCachedQuery_wf key d now c :
  JsMap.wf c → JsMap.wf (setCachedQuery key d now c).
Proof.
  intros Hwf. unfold setCachedQuery. simpl.
  pose proof (JsMapFacts.wf_set key (Entry d now) c Hwf) as Hwf'.
  destruct (decide _); [|done].
  destruct (JsMap.first_key _); [|done]. by apply JsMapFacts.wf_delete.
Qed.

Lemma setCachedQuery_size key d now c :
  JsMap.wf c → (JsMap.size c ≤ MAX_ENTRIES)%nat →
  (JsMap.size (setCachedQuery key d now c) ≤ MAX_ENTRIES)%nat.
Proof.
  intros Hwf Hsz.
  destruct (setCachedQuery_cases key d now c Hwf Hsz)
    as [(_ & Hfull & o & r & -> & ->) | (_ & -> & Hle)]; [|done].
  unfold JsMap.size in *. rewrite length_app. simpl in *. lia.
Qed.

Lemma getCachedQuery_wf_size key now c :
  JsMap.wf c → (JsMap.size c ≤ MAX_ENTRIES)%nat →
  JsMap.wf (getCachedQuery key now c).2 ∧
  (JsMap.size (getCachedQuery key now c).2 ≤ MAX_ENTRIES)%nat.
Proof.
  intros Hwf Hsz. unfold getCachedQuery.
  destruct (JsMap.get key c); [|done].
  destruct (decide _); [done|]. simpl. split; [by apply JsMapFacts.wf_delete|].
  pose proof (JsMapFacts.size_delete_le key c). lia.
Qed.

(** Every cache the program can hold has unique keys and at most 200
    entries. *)
Lemma reachable_wf_size c :
  reachable c → JsMap.wf c ∧ (JsMap.size c ≤ MAX_ENTRIES)%nat.
Proof.
  induction 1 as [|key now c _ [Hwf Hsz]|key d now c _ [Hwf Hsz]|key c _ [Hwf Hsz]].
  - split; [apply JsMapFacts.wf_empty | unfold MAX_ENTRIES; simpl; lia].
  - by apply getCachedQuery_wf_size.
  - split; [by apply setCachedQuery_wf | by apply setCachedQuery_size].
  - unfold invalidate. split; [by apply JsMapFacts.wf_delete|].
    pose proof (JsMapFacts.size_delete_le key c). lia.
Qed.

(** A hit leaves the cache as it was: reading never reorders entries. *)
Lemma getCachedQuery_hit key now c d :
  (getCachedQuery key now c).1 = Some d → (getCachedQuery key now c).2 = c.
Proof.
  unfold getCachedQuery. destruct (JsMap.get key c); [|done].
  by destruct (decide _).
Qed.

(** [put] then [get] before the entry expires reads the value back. *)
Lemma get_after_set key d now later c :
  JsMap.wf c → (JsMap.size c ≤ MAX_ENTRIES)%nat → later - now < CACHE_TTL →
  (getCachedQuery key later (setCachedQuery key d now c)).1 = Some d.
Proof.
  intros Hwf Hsz Hfresh.
  destruct (setCachedQuery_cases key d now c Hwf Hsz)
    as [(Hg & _ & o & r & -> & ->) | (_ & -> & _)].
  - unfold getCachedQuery.
    assert (Hr : JsMap.get key r = None).
    { destruct o as [k0 e0]. simpl in Hg. by destruct (decide (k0 = key)). }
    rewrite <- (JsMapFacts.set_new _ (Entry d now) _ Hr), JsMapFacts.get_set_eq.
    simpl. by destruct (decide _).
  - unfold getCachedQuery. rewrite JsMapFacts.get_set_eq. simpl.
    by destruct (decide _).
Qed.

End Cache.

(** A cache filled by [n] puts under distinct keys. *)
Fixpoint filled (n : nat) : queryCache nat :=
  match n with
  | O => JsMap.empty
  | S n' => setCachedQuery (Js.of_int (Z.of_nat n')) n' 0 (filled n')
  end.

Lemma filled_reachable n : reachable (filled n).
Proof. induction n; simpl; [apply reach_empty | by apply reach_set]. Qed.

(** C9. After a put, a cache the program can hold has at most 200
    entries. When the insertion takes the count past 200, the entry at
    the head of the insertion order, and only that one, is removed and
    the new entry is the newest; otherwise the put is a plain [Map.set]
    and nothing is removed. Reading an entry that is still valid leaves
    the order as it was, so the order is that of insertion, not of
    access. *)
Theorem setCachedQuery_bound_fifo {D : Type} (c : queryCache D)
    (key : string) (d : D) (now : Z) :
  reachable c →
  (JsMap.size (setCachedQuery key d now c) ≤ 200)%nat
  ∧ ((200 < JsMap.size (JsMap.set key (Entry d now) c))%nat →
       ∃ oldest rest,
         c = oldest :: rest ∧ JsMap.get key c = None
         ∧ setCachedQuery key d now c = rest ++ [(key, Entry d now)])
  ∧ ((JsMap.size (JsMap.set key (Entry d now) c) ≤ 200)%nat →
       setCachedQuery key d now c = JsMap.set key (Entry d now) c)
  ∧ (∀ k t v, (getCachedQuery k t c).1 = Some v → (getCachedQuery k t c).2 = c).
Proof.
  intros Hreach. destruct (reachable_wf_size c Hreach) as [Hwf Hsz].
  pose proof (setCachedQuery_size key d now c Hwf Hsz) as Hbound.
  split; [exact Hbound|].
  destruct (setCachedQuery_cases key d now c Hwf Hsz)
    as [(Hg & Hfull & o & r & Hc & Hset) | (Hno & Hset & Hle)].
  - split; [|split].
    + intros _. exists o, r. by rewrite <- Hc.
    + rewrite (JsMapFacts.size_set_new _ _ _ Hg), Hfull. unfold MAX_ENTRIES. lia.
    + intros k t v. apply getCachedQuery_hit.
  - split; [|split].
    + unfold MAX_ENTRIES in Hle. lia.
    + by intros _.
    + intros k t v. apply getCachedQuery_hit.
Qed.

(** The 201st entry: a cache of 200 entries put under the keys "0" to
    "199" receives the key "new"; the entry under "0" goes. *)
Lemma setCachedQuery_bound_fifo_witness :
  reachable (filled 200)
  ∧ (JsMap.size (setCachedQuery "new" 7%nat 5 (filled 200)) ≤ 200)%nat
  ∧ JsMap.first_key (filled 200) = Some "0"
  ∧ JsMap.first_key (setCachedQuery "new" 7%nat 5 (filled 200)) = Some "1"
  ∧ JsMap.get "0" (setCachedQuery "new" 7%nat 5 (filled 200)) = None.
Proof.
  split; [apply filled_reachable|].
  split; [exact (proj1 (setCachedQuery_bound_fifo (filled 200) "new" 7%nat 5
                          (filled_reachable 200)))|].
  by vm_compute.
Defined.

End CacheFacts.

(** ** The search-event logger *)

Module LoggerFacts.
Import Logger.

(** The result of a suppressed call. *)
Definition skipped_result : log_result :=
  {| l_ok := true; l_skipped := true; l_retried := false; l_error := None |}.

(** Whether a call at [now] finds a live entry under its key. *)
Definition suppressed (s : state) (key : string) (now : Z) : bool :=
  Js.truthy_num (recentSearchLog s !! key)
  && bool_decide (now - default 0 (recentSearchLog s !! key) < LOG_DEDUPE_TTL).

(** The request of a delivery: the payload posted with a 3000 ms limit. *)
Definition delivery (rt : Net.runtime) (userId : option Z) (query : string)
    (m : meta) (now : Z) : Net.fetch_request :=
  Net.request_of rt (Net.Url (Net.RECOMMENDER_URL rt) [])
    (Some {| Net.user_id := if Js.truthy_num userId then userId else None;
             Net.query := query;
             Net.user_agent := or_str (userAgent m) None;
             Net.client_ip := or_str (ip m) None;
             Net.timestamp := now |})
    (Net.Options None (Some 3000)).

Definition timers : list event := [EvTimer (LOG_DEDUPE_TTL * 2); EvTimer 0].

Lemma calls_app tr1 tr2 : calls (tr1 ++ tr2) = (calls tr1 + calls tr2)%nat.
Proof. unfold calls. by rewrite List.filter_app, length_app. Qed.

Definition is_record (key : string) (e : event) : bool :=
  match e with
  | EvRecord k _ => bool_decide (k = key)
  | _ => false
  end.

(** The deliveries under [key] in a trace: each starts by recording its
    time under the key. *)
Definition deliveries (key : string) (tr : list event) : nat :=
  length (List.filter (is_record key) tr).

Lemma deliveries_app key tr1 tr2 :
  deliveries key (tr1 ++ tr2) = (deliveries key tr1 + deliveries key tr2)%nat.
Proof. unfold deliveries. by rewrite List.filter_app, length_app. Qed.

(** A suppressed call only schedules the timers. *)
Lemma log_suppressed rt userId query m now s :
  suppressed s (makeDedupeKey userId query) now = true →
  logSearchToRecommender rt userId query m now s
  = (skipped_result, State (recentSearchLog s) (trace s ++ timers)).
Proof.
  unfold suppressed, logSearchToRecommender, attempt, bind, log_get, ret, emit.
  intros ->. simpl. by rewrite <- app_assoc.
Qed.

(** A call that is not suppressed records its time, then delivers: one
    [callFetch], and a second one when the first did not succeed. *)
Lemma log_delivered rt userId query m now s :
  suppressed s (makeDedupeKey userId query) now = false →
  ∃ r tail,
    logSearchToRecommender rt userId query m now s
    = (r, State (<[makeDedupeKey userId query := now]> (recentSearchLog s))
            (trace s ++ EvRecord (makeDedupeKey userId query) now
                     :: EvCallFetch (delivery rt userId query m now) :: tail))
    ∧ l_skipped r = false
    ∧ (calls tail ≤ 1)%nat
    ∧ (l_ok r = false → calls tail = 1%nat)
    ∧ (∀ k, deliveries k tail = 0%nat).
Proof.
  unfold suppressed, logSearchToRecommender, attempt, bind, log_get, log_set,
    callFetch, ret, emit.
  intros ->. cbn [recentSearchLog trace fst snd].
  fold (delivery rt userId query m now).
  destruct (Net.ok (Net.callFetch rt (calls _) _ _ _)) eqn:Hok1.
  - eexists _, timers.
    split; [cbn [recentSearchLog trace]; rewrite <- !app_assoc; reflexivity|].
    split; [done|]. split; [unfold calls; simpl; lia|]. split; done.
  - match goal with
    | |- context [Net.ok ?x] => destruct (Net.ok x) eqn:Hok2
    end.
    + eexists _, (EvCallFetch (delivery rt userId query m now) :: timers).
      split; [cbn [recentSearchLog trace]; rewrite <- !app_assoc; reflexivity|].
      split; [done|]. split; [unfold calls; simpl; lia|]. split; done.
    + eexists _, (EvCallFetch (delivery rt userId query m now) :: EvWarn :: timers).
      split; [cbn [recentSearchLog trace]; rewrite <- !app_assoc; reflexivity|].
      split; [done|]. split; [unfold calls; simpl; lia|]. split; done.
Qed.

Lemma log_skipped_iff rt userId query m now s :
  l_skipped (logSearchToRecommender rt userId query m now s).1
  = suppressed s (makeDedupeKey userId query) now.
Proof.
  destruct (suppressed s (makeDedupeKey userId query) now) eqn:Hs.
  - by rewrite (log_suppressed _ _ _ _ _ _ Hs).
  - destruct (log_delivered rt userId query m now s Hs) as (r & tl & -> & Hr & _).
    done.
Qed.

(** What may happen to the logger between two calls under one key: calls
    under other keys, and runs of the clean-up timer. *)
Inductive action : Type :=
| OtherCall (rt : Net.runtime) (userId : option Z) (query : string)
    (m : meta) (now : Z)
| CleanupRun (now : Z).

Definition run_action (a : action) (s : state) : state :=
  match a with
  | OtherCall rt userId query m now =>
      (logSearchToRecommender rt userId query m now s).2
  | CleanupRun now => (cleanup now s).2
  end.

Definition run_actions (acts : list action) (s : state) : state :=
  foldl (λ s a, run_action a s) s acts.

(** Calls in between use other keys. *)
Definition other_keys (key : string) (acts : list action) : Prop :=
  Forall (λ a, match a with
               | OtherCall _ userId query _ _ => makeDedupeKey userId query ≠ key
               | CleanupRun _ => True
               end) acts.

(** Clean-up runs in between happen no later than [t]. *)
Definition cleanups_by (t : Z) (acts : list action) : Prop :=
  Forall (λ a, match a with
               | OtherCall _ _ _ _ _ => True
               | CleanupRun now => now ≤ t
               end) acts.

Lemma log_other_key rt userId query m now s key :
  makeDedupeKey userId query ≠ key →
  recentSearchLog (logSearchToRecommender rt userId query m now s).2 !! key
  = recentSearchLog s !! key.
Proof.
  intros Hne.
  destruct (suppressed s (makeDedupeKey userId query) now) eqn:Hs.
  - by rewrite (log_suppressed _ _ _ _ _ _ Hs).
  - destruct (log_delivered rt userId query m now s Hs) as (r & tl & -> & _).
    simpl. by rewrite lookup_insert_ne.
Qed.

(** A call adds one delivery under its own key unless it is suppressed,
    and none under any other key. *)
Lemma log_deliveries rt userId query m now s key :
  deliveries key (trace (logSearchToRecommender rt userId query m now s).2)
  = (deliveries key (trace s)
     + (if bool_decide (makeDedupeKey userId query = key)
           && negb (suppressed s (makeDedupeKey userId query) now)
        then 1 else 0))%nat.
Proof.
  destruct (suppressed s (makeDedupeKey userId query) now) eqn:Hs.
  - rewrite (log_suppressed _ _ _ _ _ _ Hs), andb_false_r. simpl.
    rewrite deliveries_app. unfold deliveries at 2. simpl. lia.
  - destruct (log_delivered rt userId query m now s Hs)
      as (r & tl & -> & _ & _ & _ & Htl).
    rewrite andb_true_r. cbn [snd trace].
    rewrite deliveries_app. unfold deliveries at 2. cbn [List.filter is_record is_call].
    fold (deliveries key tl). specialize (Htl key).
    destruct (bool_decide (makeDedupeKey userId query = key)); simpl;
      fold (deliveries key tl); lia.
Qed.

Lemma run_actions_deliveries key acts s :
  other_keys key acts →
  deliveries key (trace (run_actions acts s)) = deliveries key (trace s).
Proof.
  unfold run_actions, other_keys.
  induction acts as [|a acts IH] using rev_ind; intros Hk; [done|].
  rewrite foldl_app. simpl. apply Forall_app in Hk as [Hk Ha].
  rewrite Forall_singleton in Ha. rewrite <- (IH Hk).
  destruct a as [rt u q m now | now]; simpl; [|done].
  rewrite log_deliveries. rewrite bool_decide_eq_false_2 by done. simpl. lia.
Qed.

(** In between, the entry of a key stays or is cleaned away; it stays
    when every clean-up ran within four windows of its time. *)
Lemma run_actions_entry key ts acts s :
  other_keys key acts →
  recentSearchLog s !! key = Some ts →
  (recentSearchLog (run_actions acts s) !! key = Some ts
   ∨ recentSearchLog (run_actions acts s) !! key = None)
  ∧ (∀ t, cleanups_by t acts → t - LOG_DEDUPE_TTL * 4 ≤ ts →
       recentSearchLog (run_actions acts s) !! key = Some ts).
Proof.
  unfold run_actions, other_keys, cleanups_by.
  induction acts as [|a acts IH] using rev_ind; intros Hk Hs.
  - simpl. split; [by left | done].
  - rewrite foldl_app. simpl. apply Forall_app in Hk as [Hk Ha].
    rewrite Forall_singleton in Ha. destruct (IH Hk Hs) as [IH1 IH2].
    destruct a as [rt u q m now | now]; simpl; simpl in Ha.
    + rewrite (log_other_key _ _ _ _ _ _ _ Ha). split; [done|].
      intros t Hc Ht. apply Forall_app in Hc as [Hc _]. by apply IH2 with t.
    + split.
      * destruct IH1 as [IH1|IH1].
        -- destruct (decide (ts < now - LOG_DEDUPE_TTL * 4)).
           ++ right. apply map_lookup_filter_None. right. intros x Hx.
              rewrite IH1 in Hx. injection Hx as <-. simpl. tauto.
           ++ left. apply map_lookup_filter_Some. done.
        -- right. apply map_lookup_filter_None. by left.
      * intros t Hc Ht. apply Forall_app in Hc as [Hc Hn].
        rewrite Forall_singleton in Hn.
        apply map_lookup_filter_Some. split; [by apply IH2 with t|].
        simpl. lia.
Qed.

(** A process whose remote end accepts every call. *)
Definition accepting : Net.runtime :=
  {| Net.fetchLib := Some (λ _ _, Net.Responds 200 (Some "{}"));
     Net.abortController := true;
     Net.env_RECOMMENDER_URL := None;
     Net.URL_valid := λ _, true;
     Net.JSON_parse := λ _, None |}.

(** A process whose remote end cannot be reached. *)
Definition unreachable : Net.runtime :=
  {| Net.fetchLib := Some (λ _ _, Net.Rejects "ECONNREFUSED");
     Net.abortController := true;
     Net.env_RECOMMENDER_URL := None;
     Net.URL_valid := λ _, true;
     Net.JSON_parse := λ _, None |}.

(** A process whose remote end refuses the first call it gets and accepts
    the later ones. *)
Definition flaky : Net.runtime :=
  {| Net.fetchLib := Some (λ n _, match n with
                                  | O => Net.Responds 503 (Some "busy")
                                  | S _ => Net.Responds 200 (Some "{}")
                                  end);
     Net.abortController := true;
     Net.env_RECOMMENDER_URL := None;
     Net.URL_valid := λ _, true;
     Net.JSON_parse := λ _, None |}.

Definition fresh : state := State ∅ [].

(** One failure, then success: two calls and an ok outcome marked as
    retried. The remote end down: two calls and a failure that carries
    the error of the first. *)
Example retry_once :
  (logSearchToRecommender flaky None "graphs" (Meta None None) 1000 fresh).1
  = {| l_ok := true; l_skipped := false; l_retried := true; l_error := None |}
  ∧ calls (trace (logSearchToRecommender flaky None "graphs"
                    (Meta None None) 1000 fresh).2) = 2%nat
  ∧ (logSearchToRecommender unreachable None "graphs" (Meta None None) 1000 fresh).1
    = {| l_ok := false; l_skipped := false; l_retried := false;
         l_error := Some "ECONNREFUSED" |}
  ∧ calls (trace (logSearchToRecommender unreachable None "graphs"
                    (Meta None None) 1000 fresh).2) = 2%nat.
Proof. by vm_compute. Qed.

(** The state after user 7 has searched "graphs" at 1 000 ms, and after
    the same search at 21 000 ms. *)
Definition searched_at_1s : state :=
  (logSearchToRecommender accepting (Some 7) "graphs" (Meta None None) 1000 fresh).2.

Definition searched_at_21s : state :=
  (logSearchToRecommender accepting (Some 7) "graphs" (Meta None None) 21000
     searched_at_1s).2.

(** C8, as stated, fails: of three calls for one pair at 1 s, 21 s and
    36 s the second is skipped, and the third, which comes 15 seconds
    after the second, is not: it is delivered, the window having run
    from the delivery at 1 s. The pair of the second and third call lies
    within 30 seconds and makes a delivery. *)
Lemma skipped_call_opens_no_window :
  l_skipped
    (logSearchToRecommender accepting (Some 7) "graphs" (Meta None None) 1000 fresh).1
  = false
  ∧ l_skipped
      (logSearchToRecommender accepting (Some 7) "graphs" (Meta None None) 21000
         searched_at_1s).1 = true
  ∧ (36000 - 21000 <? LOG_DEDUPE_TTL) = true
  ∧ l_skipped
      (logSearchToRecommender accepting (Some 7) "graphs" (Meta None None) 36000
         searched_at_21s).1 = false
  ∧ calls (trace searched_at_21s) = 1%nat
  ∧ calls
      (trace (logSearchToRecommender accepting (Some 7) "graphs" (Meta None None)
                36000 searched_at_21s).2) = 2%nat.
Proof. by vm_compute. Qed.

(** C8, amended. Two calls of the logger for one (user, query) pair, the
    first of them delivered at [t1] (not itself skipped), with calls for
    other pairs and runs of the clean-up timer in between. The first
    makes one delivery: one [callFetch] and at most one retry. If the second comes less than 30
    seconds after the first (no clean-up having run later than the second
    call), it resolves to the skipped result and makes no [callFetch], so
    the pair makes one delivery under its key; if it comes 30 seconds or
    more after, it is not skipped and delivers again, two deliveries in
    all. *)
Theorem dedupe_window (rt : Net.runtime) (userId : option Z) (query : string)
    (m1 m2 : meta) (t1 t2 : Z) (acts : list action) (s0 : state) :
  let key := makeDedupeKey userId query in
  let first := logSearchToRecommender rt userId query m1 t1 s0 in
  let between := run_actions acts first.2 in
  let second := logSearchToRecommender rt userId query m2 t2 between in
  t1 ≠ 0 →
  l_skipped first.1 = false →
  other_keys key acts →
  (∃ n, calls (trace first.2) = (calls (trace s0) + n)%nat ∧ (1 ≤ n ≤ 2)%nat)
  ∧ (t2 - t1 < LOG_DEDUPE_TTL → cleanups_by t2 acts →
       second.1 = skipped_result
       ∧ calls (trace second.2) = calls (trace between)
       ∧ deliveries key (trace second.2) = (deliveries key (trace s0) + 1)%nat)
  ∧ (LOG_DEDUPE_TTL ≤ t2 - t1 →
       l_skipped second.1 = false
       ∧ (calls (trace between) < calls (trace second.2))%nat
       ∧ deliveries key (trace second.2) = (deliveries key (trace s0) + 2)%nat).
Proof.
  intros key first between second Ht1 Hfirst Hothers.
  assert (Hdel : ∀ sk, suppressed between key t2 = sk →
            deliveries key (trace second.2)
            = (deliveries key (trace s0) + 1 + (if sk then 0 else 1))%nat).
  { intros sk Hsk. subst second. rewrite log_deliveries. fold key. rewrite Hsk.
    rewrite bool_decide_eq_true_2 by done. subst between.
    rewrite (run_actions_deliveries _ _ _ Hothers). subst first.
    rewrite log_deliveries. fold key. rewrite bool_decide_eq_true_2 by done.
    rewrite log_skipped_iff in Hfirst. fold key in Hfirst. rewrite Hfirst.
    destruct sk; simpl; lia. }
  subst first. rewrite log_skipped_iff in Hfirst.
  destruct (log_delivered rt userId query m1 t1 s0 Hfirst)
    as (r1 & tl & E1 & _ & Htl & _).
  assert (Hentry : recentSearchLog
            (logSearchToRecommender rt userId query m1 t1 s0).2 !! key = Some t1).
  { rewrite E1. simpl. apply lookup_insert_eq. }
  destruct (run_actions_entry key t1 acts _ Hothers Hentry) as [Hcases Hkept].
  fold between in Hcases, Hkept.
  split; [|split].
  - exists (S (calls tl)). rewrite E1. cbn [snd trace]. rewrite calls_app.
    unfold calls at 2. simpl. fold (calls tl). split; lia.
  - intros Hlt Hclean.
    assert (Hs : suppressed between key t2 = true).
    { unfold suppressed. rewrite (Hkept t2 Hclean) by (unfold LOG_DEDUPE_TTL in *; lia).
      simpl. destruct t1; [done| |]; simpl; by rewrite bool_decide_eq_true. }
    pose proof (Hdel true Hs) as Hone.
    subst second. rewrite (log_suppressed _ _ _ _ _ _ Hs) in *. simpl.
    split; [done|]. split; [rewrite calls_app; unfold calls at 2; simpl; lia|].
    simpl in Hone. lia.
  - intros Hge.
    assert (Hs : suppressed between key t2 = false).
    { unfold suppressed. destruct Hcases as [-> | ->]; [|done].
      simpl. rewrite andb_false_iff. right. by rewrite bool_decide_eq_false, Z.nlt_ge. }
    pose proof (Hdel false Hs) as Htwo.
    subst second.
    destruct (log_delivered rt userId query m2 t2 between Hs)
      as (r2 & tl2 & E2 & Hr2 & _).
    rewrite E2 in *. cbn [fst snd trace] in *. split; [done|].
    split; [rewrite calls_app; unfold calls at 3; simpl; lia|].
    rewrite Htwo. lia.
Qed.

(** User 7 searches "graphs" at 1 000 ms and again at 20 000 ms, another
    user searching and a clean-up running in between: one delivery. The
    same pair again 40 s after the first: a second delivery. *)
Lemma dedupe_window_witness :
  let first := logSearchToRecommender accepting (Some 7) "graphs" (Meta None None) 1000 fresh in
  let acts := [OtherCall accepting (Some 8) "graphs" (Meta None None) 5000;
               CleanupRun 15000] in
  let between := run_actions acts first.2 in
  (logSearchToRecommender accepting (Some 7) "graphs" (Meta None None) 20000 between).1
  = skipped_result
  ∧ calls (trace first.2) = 1%nat
  ∧ calls (trace (logSearchToRecommender accepting (Some 7) "graphs"
                    (Meta None None) 20000 between).2)
    = calls (trace between)
  ∧ deliveries "7::graphs"
      (trace (logSearchToRecommender accepting (Some 7) "graphs"
                (Meta None None) 20000 between).2) = 1%nat
  ∧ l_skipped (logSearchToRecommender accepting (Some 7) "graphs"
                 (Meta None None) 41000 between).1 = false
  ∧ deliveries "7::graphs"
      (trace (logSearchToRecommender accepting (Some 7) "graphs"
                (Meta None None) 41000 between).2) = 2%nat.
Proof.
  cbv zeta.
  pose proof (dedupe_window accepting (Some 7) "graphs" (Meta None None)
                (Meta None None) 1000 20000
                [OtherCall accepting (Some 8) "graphs" (Meta None None) 5000;
                 CleanupRun 15000] fresh) as Hnear.
  pose proof (dedupe_window accepting (Some 7) "graphs" (Meta None None)
                (Meta None None) 1000 41000
                [OtherCall accepting (Some 8) "graphs" (Meta None None) 5000;
                 CleanupRun 15000] fresh) as Hfar.
  cbv zeta in Hnear, Hfar.
  assert (Hk : other_keys (makeDedupeKey (Some 7) "graphs")
                 [OtherCall accepting (Some 8) "graphs" (Meta None None) 5000;
                  CleanupRun 15000]).
  { repeat constructor. by vm_compute. }
  destruct (Hnear ltac:(done) ltac:(by vm_compute) Hk) as (_ & Hskip & _).
  destruct (Hfar ltac:(done) ltac:(by vm_compute) Hk) as (_ & _ & Hagain).
  destruct (Hskip ltac:(by vm_compute) ltac:(repeat constructor; lia))
    as (Hr & Hc & Hd).
  destruct (Hagain ltac:(by vm_compute)) as (Hr' & _ & Hd').
  split; [exact Hr|]. split; [by vm_compute|]. split; [exact Hc|].
  split; [exact Hd|]. split; [exact Hr' | exact Hd'].
Defined.

(** C10. A call that is not suppressed first records its time under its
    key and only then calls [callFetch]: its events begin with the record,
    the first delivery follows it, and the entry is in the map whatever
    the deliveries come to. So a call for the same pair less than 30
    seconds later is skipped and makes no [callFetch], also when the
    first call ended in failure after its send and its retry. *)
Theorem record_before_delivery (rt : Net.runtime) (userId : option Z)
    (query : string) (m1 : meta) (t1 : Z) (s0 : state) :
  let key := makeDedupeKey userId query in
  let first := logSearchToRecommender rt userId query m1 t1 s0 in
  t1 ≠ 0 →
  l_skipped first.1 = false →
  (∃ tail, trace first.2
           = trace s0 ++ EvRecord key t1
                      :: EvCallFetch (delivery rt userId query m1 t1) :: tail)
  ∧ recentSearchLog first.2 !! key = Some t1
  ∧ (l_ok first.1 = false → calls (trace first.2) = (calls (trace s0) + 2)%nat)
  ∧ (∀ m2 t2, t2 - t1 < LOG_DEDUPE_TTL →
       (logSearchToRecommender rt userId query m2 t2 first.2).1 = skipped_result
       ∧ calls (trace (logSearchToRecommender rt userId query m2 t2 first.2).2)
         = calls (trace first.2)).
Proof.
  intros key first Ht1 Hfirst. subst first. rewrite log_skipped_iff in Hfirst.
  destruct (log_delivered rt userId query m1 t1 s0 Hfirst)
    as (r1 & tl & E1 & _ & Htl & Hfail & _).
  rewrite E1. cbn [fst snd trace recentSearchLog].
  split; [by exists tl|]. split; [apply lookup_insert_eq|]. split.
  - intros Hok. rewrite calls_app. unfold calls at 2. simpl. fold (calls tl).
    rewrite (Hfail Hok). lia.
  - intros m2 t2 Hlt.
    assert (Hs : suppressed
              (State (<[key := t1]> (recentSearchLog s0))
                 (trace s0 ++ EvRecord key t1
                    :: EvCallFetch (delivery rt userId query m1 t1) :: tl))
              key t2 = true).
    { unfold suppressed. cbn [recentSearchLog]. rewrite lookup_insert_eq. simpl.
      destruct t1; [done| |]; simpl; by rewrite bool_decide_eq_true. }
    fold key. rewrite (log_suppressed _ _ _ _ _ _ Hs). simpl.
    split; [done|]. rewrite (calls_app _ timers). unfold calls at 2. simpl. lia.
Qed.

(** The remote end is down: the first call at 1 000 ms ends in failure
    after two calls, and the same search 29 s later is skipped. *)
Lemma record_before_delivery_witness :
  let first := logSearchToRecommender unreachable None "graphs" (Meta None None) 1000 fresh in
  l_ok first.1 = false
  ∧ calls (trace first.2) = 2%nat
  ∧ recentSearchLog first.2 !! "anon::graphs" = Some 1000
  ∧ (logSearchToRecommender unreachable None "graphs" (Meta None None) 30000 first.2).1
    = skipped_result.
Proof.
  cbv zeta.
  destruct (record_before_delivery unreachable None "graphs" (Meta None None)
              1000 fresh ltac:(done) ltac:(by vm_compute))
    as (_ & Hentry & Hcalls & Hnext).
  split; [by vm_compute|]. split; [exact (Hcalls ltac:(by vm_compute))|].
  split; [exact Hentry|].
  exact (proj1 (Hnext (Meta None None) 30000 ltac:(by vm_compute))).
Defined.

End LoggerFacts.

(** ** The recommendation fetcher *)

Module RecommenderFacts.
Import Recommender.

(** What the remote end does with the fetcher's one call, if it gets to
    make it. *)
Definition answer (rt : Net.runtime) (userId : option Z) (limit : Z)
  : option Net.fetch_outcome :=
  match Net.fetchLib rt, recommend_request rt userId limit with
  | Some fetchImpl, Some req => Some (fetchImpl 0%nat req)
  | _, _ => None
  end.


(** Without an answer there is no list: the address was refused or there
    is nothing to fetch with. *)
Lemma no_answer rt userId limit :
  answer rt userId limit = None → getRecommendations rt userId limit = Returns [].
Proof.
  unfold answer, recommend_request, getRecommendations, Net.callFetch.
  destruct (recommend_url rt userId limit) as [u|msg]; simpl; [|done].
  by destruct (Net.fetchLib rt).
Qed.

Lemma with_answer rt userId limit out :
  answer rt userId limit = Some out →
  getRecommendations rt userId limit
  = match out with
    | Net.Rejects _ => Returns []
    | Net.Responds st text =>
        if Net.res_ok st then
          Returns (default []
            (match parse_body rt (default EmptyString text) with
             | Returns returned => returned
             | Throws _ => None
             end))
        else Returns []
    end.
Proof.
  unfold answer, recommend_request, getRecommendations, Net.callFetch.
  destruct (recommend_url rt userId limit) as [u|msg]; simpl;
    [|by destruct (Net.fetchLib rt)].
  destruct (Net.fetchLib rt) as [f|]; [|done].
  intros [= <-]. destruct (f 0%nat _) as [msg|st text]; simpl; [done|].
  destruct (Net.res_ok st); simpl; [|done].
  by destruct (parse_body rt (default EmptyString text)).
Qed.

(** The ids of an array without null entries, in its order. *)
Lemma paper_ids_all (items : list Js.json) :
  Forall (λ r, r ≠ Js.JNull) items →
  map_completion paper_id_of items = Returns (Js.get_prop "paper_id" <$> items).
Proof.
  induction 1 as [|r items Hr _ IH]; [done|].
  cbn [map_completion]. rewrite IH.
  by destruct r.
Qed.



(** A process whose remote end answers every call with [text], parsed as
    [parsed]. *)
Definition answering (st : Z) (text : string) (parsed : option Js.json)
  : Net.runtime :=
  {| Net.fetchLib := Some (λ _ _, Net.Responds st (Some text));
     Net.abortController := true;
     Net.env_RECOMMENDER_URL := None;
     Net.URL_valid := λ _, true;
     Net.JSON_parse := λ _, parsed |}.

Definition ranked (ids : list Z) : Js.json :=
  Js.JObj [("recommendations",
            Js.JArr ((λ n, Js.JObj [("paper_id", Js.JNum n)]) <$> ids))].

(** A well-formed answer yields its ids in the order given; the call goes
    to the recommend endpoint with the user and the size asked for. *)
Example getRecommendations_ranked :
  getRecommendations (answering 200 "{..}" (Some (ranked [5; 8; 2; 1]))) (Some 7) 50
  = Returns [Some (Js.JNum 5); Some (Js.JNum 8); Some (Js.JNum 2); Some (Js.JNum 1)]
  ∧ recommend_request (answering 200 "{..}" None) (Some 7) 50
    = Some {| Net.f_url := Net.Url "http://127.0.0.1:8000/api/recommend"
                             [("user_id", "7"); ("top_n", "50")];
              Net.f_method := "GET"; Net.f_body := None;
              Net.f_signal := Some 5000 |}.
Proof. by vm_compute. Qed.

(** Payloads of the wrong shape are caught the same way: a null entry, a
    member that is no array, a server error. *)
Example getRecommendations_malformed :
  getRecommendations
    (answering 200 "{..}" (Some (Js.JObj [("recommendations", Js.JArr [Js.JNull])])))
    None 50 = Returns []
  ∧ getRecommendations
      (answering 200 "{..}" (Some (Js.JObj [("recommendations", Js.JNum 3)])))
      None 50 = Returns []
  ∧ getRecommendations (answering 503 "{..}" (Some (ranked [5]))) None 50
    = Returns [].
Proof. by vm_compute. Qed.

End RecommenderFacts.

(** ** The feed composer *)

Module FeedFacts.
Import Feed.

(** *** Putting fetched rows back in ranking order *)

Lemma paperMap_snoc rows p :
  paperMap (rows ++ [p]) = JsMap.set (Paper_ID p) p (paperMap rows).
Proof. unfold paperMap. by rewrite foldl_app. Qed.

(** The map finds, for an id, a fetched row with that id, and finds
    nothing only when no fetched row has it. *)
Lemma paperMap_get_spec n rows :
  match JsMap.get n (paperMap rows) with
  | Some p => p ∈ rows ∧ Paper_ID p = n
  | None => n ∉ Paper_ID <$> rows
  end.
Proof.
  induction rows as [|p rows IH] using rev_ind.
  - simpl. apply not_elem_of_nil.
  - rewrite paperMap_snoc. destruct (decide (Paper_ID p = n)) as [<-|Hne].
    + rewrite JsMapFacts.get_set_eq. split; [|done].
      apply elem_of_app. right. by apply list_elem_of_singleton.
    + rewrite JsMapFacts.get_set_ne by done.
      destruct (JsMap.get n (paperMap rows)) as [q|].
      * destruct IH as [Hin Hid]. split; [|done].
        apply elem_of_app. by left.
      * rewrite fmap_app. simpl. intros Hin.
        apply elem_of_app in Hin as [Hin|Hin]; [done|].
        apply list_elem_of_singleton in Hin. congruence.
Qed.



Definition num (n : Z) : Js.value := Some (Js.JNum n).

Definition row (n : Z) : paper := Paper n ("Paper " +:+ Js.of_int n) "2024-01-01" None.


(** *** What the handler answers *)

Definition answer_of (composed : option body) : response :=
  match composed with
  | Some b => Page b
  | None => failure_papers
  end.

(** A request served from the cache. *)
Lemma get_papers_hit e req now later cache b :
  (Cache.getCachedQuery (listing_key req) now cache).1 = Some b →
  get_papers e req now later cache = Outcome (Page b) cache [].
Proof.
  intros Hhit. pose proof (CacheFacts.getCachedQuery_hit _ _ _ _ Hhit) as Hsame.
  unfold get_papers.
  destruct (Cache.getCachedQuery (listing_key req) now cache) as [cached c1].
  simpl in *. by subst.
Qed.

(** A request composed afresh. *)
Lemma get_papers_miss e req now later cache :
  (Cache.getCachedQuery (listing_key req) now cache).1 = None →
  response_of (get_papers e req now later cache)
  = (if getPool e then answer_of (compose e req) else failure_papers)
  ∧ spawned (get_papers e req now later cache) = listing_tasks e req.
Proof.
  intros Hmiss. unfold get_papers.
  destruct (Cache.getCachedQuery (listing_key req) now cache) as [cached c1].
  simpl in Hmiss. subst cached. destruct (getPool e); simpl; [|done].
  by destruct (compose e req).
Qed.

(** *** A store and a recommender to run the handler against *)

(** The papers 1 to [n], the store's whole content. *)
Definition corpus (n : nat) : list paper := (λ i, row (Z.of_nat i)) <$> seq 1 n.

Definition find_row (n : nat) (id : Js.value) : option paper :=
  match id with
  | Some (Js.JNum k) =>
      if bool_decide (1 ≤ k ≤ Z.of_nat n) then Some (row k) else None
  | _ => None
  end.

(** A store of [n] papers that all pass every filter. It returns the rows
    of an id list in the reverse of the order asked, and refuses a
    negative offset and a limit below 1. *)
Definition store (n : nat) (r : Net.runtime)
    (verify : string → option jwt_payload) : env :=
  {| rt := r;
     jwt_verify := verify;
     getPool := true;
     query_by_ids := λ ids, Some (reverse (omap (find_row n) ids));
     query_page := λ _ _ offset limit,
       if bool_decide (0 ≤ offset ∧ 0 < limit)
       then Some (take (Z.to_nat limit) (drop (Z.to_nat offset) (corpus n)))
       else None;
     query_count := λ _ _, Some (Z.of_nat n);
     query_search := λ _ offset limit,
       if bool_decide (0 ≤ offset ∧ 0 < limit)
       then Some (take (Z.to_nat limit) (drop (Z.to_nat offset) (corpus n)))
       else None;
     query_search_count := λ _, Some (Z.of_nat n) |}.

Definition no_token : string → option jwt_payload := λ _, None.

(** A request with the given [page], [limit] and [search] and nothing
    else. *)
Definition listing (page limit search : option string) : request :=
  {| q_page := page; q_limit := limit; q_fieldId := None; q_search := search;
     q_q := None; user := None; h_authorization := None;
     h_user_agent := None; req_ip := None |}.

(** The ids 45, 44, ..., 1: a ranking that is not the store's order. *)
Definition ranking45 : list Z := reverse ((λ i, Z.of_nat i) <$> seq 1 45).

Definition feed45 : env :=
  store 100 (RecommenderFacts.answering 200 "{..}"
               (Some (RecommenderFacts.ranked ranking45))) no_token.

(** C2. A request composed in personalized mode (no cached answer, the
    pool at hand, a ranked list that is not empty). If the slice of the
    list for its page is empty: on page 1 the answer is that of the
    standard queries; on a later page it is an empty page whose total is
    the length of the ranked list, whatever the store would say.
    Otherwise the page holds the rows fetched for the slice, in the order
    of the slice, with the same total. *)
Theorem personalized_pagination (e : env) (req : request) (now later : Z)
    (cache : Cache.queryCache body) :
  let page := page_of req in
  let limit := limit_of req in
  let recs := recommendedPaperIds e req in
  let pagedIds := Js.slice recs ((page - 1) * limit) ((page - 1) * limit + limit) in
  let n := Z.of_nat (length recs) in
  let answer := response_of (get_papers e req now later cache) in
  (Cache.getCachedQuery (listing_key req) now cache).1 = None →
  getPool e = true →
  recs ≠ [] →
  (pagedIds = [] → page = 1 →
     answer = answer_of (standard_page e (q_fieldId req) (q_search req) page limit))
  ∧ (pagedIds = [] → 1 < page →
       answer = Page (Body true "Papers retrieved successfully" []
                        (Pagination page limit n (Js.ceil_div n limit)) None))
  ∧ (pagedIds ≠ [] →
       answer = answer_of
                  ((λ rows, Body true "Recommended papers retrieved"
                              (reorder pagedIds rows)
                              (Pagination page limit n (Js.ceil_div n limit))
                              (Some true))
                   <$> query_by_ids e pagedIds)).
Proof.
  intros page limit recs pagedIds n answer Hmiss Hpool Hrecs.
  subst answer. destruct (get_papers_miss e req now later cache Hmiss) as [-> _].
  rewrite Hpool. unfold compose, choose_plan.
  fold page limit recs. fold pagedIds.
  rewrite bool_decide_eq_true_2 by (destruct recs; [done | simpl; lia]).
  split; [|split].
  - intros -> ->. by rewrite !bool_decide_eq_true_2.
  - intros -> Hpage. rewrite bool_decide_eq_true_2 by done.
    rewrite bool_decide_eq_false_2 by lia. done.
  - intros Hne. rewrite bool_decide_eq_false_2 by (by destruct pagedIds).
    unfold personalized_page. fold recs n pagedIds.
    by destruct (query_by_ids e pagedIds).
Qed.

(** A ranked list of 45 ids and limit 20: page 4 is empty with total 45
    (and 3 pages); page 1 has the first 20 ids of the ranking in its
    order, page 3 the last 5. *)
Lemma personalized_pagination_witness :
  response_of (get_papers feed45 (listing (Some "4") (Some "20") None) 0 1 [])
  = Page (Body true "Papers retrieved successfully" []
            (Pagination 4 20 45 3) None)
  ∧ response_of (get_papers feed45 (listing (Some "1") (Some "20") None) 0 1 [])
    = Page (Body true "Recommended papers retrieved"
              (row <$> take 20 ranking45) (Pagination 1 20 45 3) (Some true))
  ∧ response_of (get_papers feed45 (listing (Some "3") (Some "20") None) 0 1 [])
    = Page (Body true "Recommended papers retrieved"
              (row <$> [5; 4; 3; 2; 1]) (Pagination 3 20 45 3) (Some true)).
Proof.
  split; [|split].
  - destruct (personalized_pagination feed45 (listing (Some "4") (Some "20") None)
                0 1 [] ltac:(by vm_compute) ltac:(by vm_compute)
                ltac:(by vm_compute)) as (_ & Hend & _).
    rewrite (Hend ltac:(by vm_compute) ltac:(by vm_compute)). by vm_compute.
  - destruct (personalized_pagination feed45 (listing (Some "1") (Some "20") None)
                0 1 [] ltac:(by vm_compute) ltac:(by vm_compute)
                ltac:(by vm_compute)) as (_ & _ & Hpage).
    rewrite (Hpage ltac:(by vm_compute)). by vm_compute.
  - destruct (personalized_pagination feed45 (listing (Some "3") (Some "20") None)
                0 1 [] ltac:(by vm_compute) ltac:(by vm_compute)
                ltac:(by vm_compute)) as (_ & _ & Hpage).
    rewrite (Hpage ltac:(by vm_compute)). by vm_compute.
Defined.

(** *** The mode of a request *)

(** With search text or a field filter no recommendation is fetched. *)
Lemma recommended_none_when_filtered e req :
  Js.truthy_str (q_search req) = true ∨ Js.truthy_str (q_fieldId req) = true →
  recommendedPaperIds e req = [].
Proof.
  unfold recommendedPaperIds. intros [-> | ->]; [done|].
  by rewrite andb_false_r.
Qed.

(** A recommender that ranks paper 5 alone. *)
Definition feed1 : env :=
  store 100 (RecommenderFacts.answering 200 "{..}"
               (Some (RecommenderFacts.ranked [5]))) no_token.

(** C6, as stated, fails: a request without search text or field filter,
    for which the recommender returns the one id 5, asks for page 1 with
    limit -1. The slice [5].slice(0, -1) is empty, so on page 1 the
    request is demoted: the plan is the standard one, and the answer (a
    failure here, the store refusing the limit) is no personalized page. *)
Lemma nonempty_ranking_served_standard :
  Js.truthy_str (q_search (listing None (Some "-1") None)) = false
  ∧ Js.truthy_str (q_fieldId (listing None (Some "-1") None)) = false
  ∧ recommendedPaperIds feed1 (listing None (Some "-1") None) = [num 5]
  ∧ page_of (listing None (Some "-1") None) = 1
  ∧ limit_of (listing None (Some "-1") None) = -1
  ∧ personalized (choose_plan [num 5] 1 (-1)) = false
  ∧ compose feed1 (listing None (Some "-1") None)
    = standard_page feed1 None None 1 (-1)
  ∧ response_of (get_papers feed1 (listing None (Some "-1") None) 0 1 [])
    = failure_papers.
Proof. by vm_compute. Qed.

(** C6, amended. A request with search text or a field filter is composed
    in standard mode without asking the recommender. For any request, the
    mode is personalized exactly when the ranked list fetched is not
    empty and the request is not for page 1 with an empty slice of it.
    When the list is empty the answer is the standard page: its
    [isRecommendation] is false and its papers are the rows of the
    standard query, in the order the store returned them. A page
    composed in standard mode carries [isRecommendation] false, a page of
    ranked papers carries it true, and the empty page past the end of the
    ranked list carries no such member. The handler answers with what is
    composed this way whenever it does not answer from the cache. *)
Theorem feed_mode (e : env) (req : request) :
  let page := page_of req in
  let limit := limit_of req in
  let recs := recommendedPaperIds e req in
  let pagedIds := Js.slice recs ((page - 1) * limit) ((page - 1) * limit + limit) in
  let standard := standard_page e (q_fieldId req) (q_search req) page limit in
  (Js.truthy_str (q_search req) = true ∨ Js.truthy_str (q_fieldId req) = true →
     recs = [] ∧ choose_plan recs page limit = Standard ∧ compose e req = standard)
  ∧ (personalized (choose_plan recs page limit) = true
     ↔ recs ≠ [] ∧ ¬ (page = 1 ∧ pagedIds = []))
  ∧ (recs = [] →
       compose e req = standard
       ∧ ∀ b, compose e req = Some b →
           isRecommendation b = Some false
           ∧ query_page e (bound (q_fieldId req)) (bound (q_search req))
               ((page - 1) * limit) limit = Some (papers b))
  ∧ (∀ b, compose e req = Some b →
       isRecommendation b
       = match choose_plan recs page limit with
         | Standard => Some false
         | ByIds _ => Some true
         | EndOfFeed => None
         end)
  ∧ (∀ now later cache,
       (Cache.getCachedQuery (listing_key req) now cache).1 = None →
       getPool e = true →
       response_of (get_papers e req now later cache) = answer_of (compose e req)).
Proof.
  intros page limit recs pagedIds standard.
  assert (Hnil : recs = [] → compose e req = standard).
  { intros H. unfold compose. fold recs page limit. by rewrite H. }
  split; [|split; [|split; [|split]]].
  - intros Hf. pose proof (recommended_none_when_filtered e req Hf) as H.
    fold recs in H. split; [done|]. split; [by rewrite H | by apply Hnil].
  - unfold choose_plan. fold pagedIds.
    destruct recs as [|r recs'] eqn:Hrecs.
    + simpl. split; [done | by intros [? _]].
    + rewrite bool_decide_eq_true_2 by (simpl; lia).
      destruct (decide (pagedIds = [])) as [Hp|Hp].
      * rewrite bool_decide_eq_true_2 by (by rewrite Hp).
        destruct (decide (page = 1)) as [H1|H1].
        -- rewrite bool_decide_eq_true_2 by done. simpl.
           split; [done | intros [_ H]; exfalso; by apply H].
        -- rewrite bool_decide_eq_false_2 by done. simpl.
           split; [|done]. intros _. split; [done | by intros [? _]].
      * rewrite bool_decide_eq_false_2 by (by destruct pagedIds).
        simpl. split; [|done]. intros _. split; [done | by intros [_ ?]].
  - intros H. split; [by apply Hnil|]. intros b. rewrite (Hnil H).
    unfold standard, standard_page.
    destruct (query_page e _ _ _ _) as [rows|]; [|done].
    destruct (query_count e _ _) as [k|]; [|done].
    by intros [= <-].
  - intros b. unfold compose. fold recs page limit.
    destruct (choose_plan recs page limit) as [|ids|].
    + unfold standard_page.
      destruct (query_page e _ _ _ _) as [rows|]; [|done].
      destruct (query_count e _ _) as [k|]; [|done]. by intros [= <-].
    + unfold personalized_page.
      destruct (query_by_ids e ids) as [rows|]; [|done]. by intros [= <-].
    + by intros [= <-].
  - intros now later cache Hmiss Hpool.
    destruct (get_papers_miss e req now later cache Hmiss) as [-> _].
    by rewrite Hpool.
Qed.

(** *** Pagination bounds *)

Definition store150 : env :=
  store 150 (RecommenderFacts.answering 200 "{..}" None) no_token.

(** C4, on the code. The listing route answers 200 or 500 and nothing
    else, so no request is refused as a client error. A request with
    limit 101 and search text is served a page of 101 papers; one with
    limit -5 or page -3 reaches the store, whose refusal comes back as
    a 500. The guards of the authors and fields routes refuse all
    three. *)
Theorem listing_bounds_unchecked :
  (∀ e req now later cache,
     status (response_of (get_papers e req now later cache)) = 200
     ∨ status (response_of (get_papers e req now later cache)) = 500)
  ∧ limit_of (listing None (Some "101") (Some "x")) = 101
  ∧ status (response_of
              (get_papers store150 (listing None (Some "101") (Some "x")) 0 1 []))
    = 200
  ∧ (match response_of
            (get_papers store150 (listing None (Some "101") (Some "x")) 0 1 [])
     with
     | Page b => length (papers b)
     | Failure _ _ => 0%nat
     end) = 101%nat
  ∧ limit_of (listing None (Some "-5") (Some "x")) = -5
  ∧ status (response_of
              (get_papers store150 (listing None (Some "-5") (Some "x")) 0 1 []))
    = 500
  ∧ page_of (listing (Some "-3") None (Some "x")) = -3
  ∧ status (response_of
              (get_papers store150 (listing (Some "-3") None (Some "x")) 0 1 []))
    = 500
  ∧ Authors.refuses None (Some "101") = true
  ∧ Authors.refuses None (Some "-5") = true
  ∧ Authors.refuses (Some "-3") None = true
  ∧ Fields.refuses None (Some "101") = true
  ∧ Fields.refuses None (Some "-5") = true
  ∧ Fields.refuses (Some "-3") None = true.
Proof.
  split; [|by vm_compute].
  intros e req now later cache. unfold get_papers.
  destruct (Cache.getCachedQuery (listing_key req) now cache) as [[b|] c1];
    [by left|].
  destruct (getPool e); simpl; [|by right].
  destruct (compose e req); simpl; [by left | by right].
Qed.

(** *** Search logging and the cache *)

(** A search request to the dedicated route. *)
Definition searching (q : string) : request :=
  {| q_page := None; q_limit := None; q_fieldId := None; q_search := None;
     q_q := Some q; user := None; h_authorization := None;
     h_user_agent := None; req_ip := None |}.

Definition idle : server := Server [] LoggerFacts.fresh.

Definition graphs_task : log_task := LogTask None "graphs" (Logger.Meta None None).

(** C3, on the code. The listing route returns a cached answer before it
    reaches the logger call, so a request with search text that is served
    from the cache detaches no logger call. The same search sent twice,
    40 s apart (inside the cache's 60 s, outside the logger's 30 s): the
    listing route logs the first only, one delivery in all; the search
    route, which logs before it looks into the cache, logs both, two
    deliveries. *)
Theorem cached_search_not_logged :
  (∀ e req now later cache b,
     (Cache.getCachedQuery (listing_key req) now cache).1 = Some b →
     spawned (get_papers e req now later cache) = [])
  ∧ (∀ e req now later cache,
       (Cache.getCachedQuery (listing_key req) now cache).1 = None →
       Js.truthy_str (q_search req) = true →
       spawned (get_papers e req now later cache)
       = [LogTask (user_for_log e req) (default EmptyString (q_search req))
            (Logger.Meta (h_user_agent req) (req_ip req))])
  ∧ (let req := listing None None (Some "graphs") in
     let first := get_papers store150 req 1000 1010 [] in
     let second := get_papers store150 req 41000 41010 (cache_of first) in
     spawned first = [graphs_task]
     ∧ spawned second = []
     ∧ response_of second = response_of first
     ∧ Logger.calls (Logger.trace (logger
         (serve get_papers store150 req 41000 41010
            (serve get_papers store150 req 1000 1010 idle).2).2)) = 1%nat)
  ∧ (let req := searching "graphs" in
     let first := get_search_query store150 req 1000 1010 [] in
     let second := get_search_query store150 req 41000 41010 (cache_of first) in
     spawned first = [graphs_task]
     ∧ spawned second = [graphs_task]
     ∧ response_of second = response_of first
     ∧ Logger.calls (Logger.trace (logger
         (serve get_search_query store150 req 41000 41010
            (serve get_search_query store150 req 1000 1010 idle).2).2)) = 2%nat).
Proof.
  split; [|split; [|split; by vm_compute]].
  - intros e req now later cache b Hhit. by rewrite (get_papers_hit _ _ _ _ _ _ Hhit).
  - intros e req now later cache Hmiss Hsearch.
    destruct (get_papers_miss e req now later cache Hmiss) as [_ ->].
    unfold listing_tasks. by rewrite Hsearch.
Qed.

(** *** The cache key and the identity of the caller *)

(** The listing request of a caller who presents a bearer token. *)
Definition listing_as (authorization : option string) : request :=
  {| q_page := None; q_limit := None; q_fieldId := None; q_search := None;
     q_q := None; user := None; h_authorization := authorization;
     h_user_agent := None; req_ip := None |}.

(** Tokens "t1" and "t2" belong to the users 1 and 2. *)
Definition two_users (token : string) : option jwt_payload :=
  if decide (token = "t1") then Some (JwtPayload (Some 1))
  else if decide (token = "t2") then Some (JwtPayload (Some 2))
  else None.

(** A recommender that ranks 5, 8 for user 1 and 2, 1 for anyone else:
    it answers with the [user_id] it was asked about. *)
Definition per_user : Net.runtime :=
  {| Net.fetchLib := Some (λ _ req,
       Net.Responds 200
         (Some (default "anon"
                  (snd <$> head (Net.searchParams (Net.f_url req))))));
     Net.abortController := true;
     Net.env_RECOMMENDER_URL := None;
     Net.URL_valid := λ _, true;
     Net.JSON_parse := λ text,
       Some (RecommenderFacts.ranked (if decide (text = "1") then [5; 8] else [2; 1])) |}.

Definition feed_per_user : env := store 100 per_user two_users.

(** C1, on the code. The key is computed from the query and [req.user]
    alone; the [Authorization] header, from which the personalized feed
    takes the caller's identity, has no part in it. The route runs without
    the middleware that sets [req.user], and then two callers with the
    tokens of users 1 and 2 get one key, with "anon" for the user, while
    the recommender is asked about user 1 and user 2 and ranks
    differently for them; user 2, asking after user 1, is served user 1's
    feed from the cache. *)
Theorem cache_key_ignores_bearer :
  (∀ a b q1 q2 q3 q4 q5 u ua ip,
     listing_key (Request q1 q2 q3 q4 q5 u a ua ip)
     = listing_key (Request q1 q2 q3 q4 q5 u b ua ip))
  ∧ (let alice := listing_as (Some "Bearer t1") in
     let bob := listing_as (Some "Bearer t2") in
     let page ids :=
       Page (Body true "Recommended papers retrieved" (row <$> ids)
               (Pagination 1 12 2 1) (Some true)) in
     user_for_feed feed_per_user alice = Some 1
     ∧ user_for_feed feed_per_user bob = Some 2
     ∧ listing_key alice = listing_key bob
     ∧ listing_key alice
       = Js.stringify [("page", Js.PNum 1); ("limit", Js.PNum 12);
                       ("userId", Js.PStr "anon")]
     ∧ response_of (get_papers feed_per_user alice 1000 1010 []) = page [5; 8]
     ∧ response_of (get_papers feed_per_user bob 1000 1010 []) = page [2; 1]
     ∧ response_of
         (get_papers feed_per_user bob 2000 2010
            (cache_of (get_papers feed_per_user alice 1000 1010 [])))
       = page [5; 8]).
Proof. split; [done | by vm_compute]. Qed.

End FeedFacts.

(* ===================================================================== *)
(** * Further properties: text, keys and serialization                   *)
(* ===================================================================== *)

Module TextFacts.

Lemma app_assoc_str (a b c : string) : (a +:+ b) +:+ c = a +:+ (b +:+ c).
Proof.
  induction a as [|x a IH]; [done|].
  change (String x ((a +:+ b) +:+ c) = String x (a +:+ (b +:+ c))).
  by rewrite IH.
Qed.

Lemma app_empty_r (a : string) : a +:+ EmptyString = a.
Proof.
  induction a as [|x a IH]; [done|].
  change (String x (a +:+ EmptyString) = String x a). by rewrite IH.
Qed.

Lemma app_cons (x : ascii) (a b : string) : String x a +:+ b = String x (a +:+ b).
Proof. done. Qed.

Lemma app_nil (b : string) : EmptyString +:+ b = b.
Proof. done. Qed.

(** Every character of [s] passes [p]. *)
Fixpoint all_chars (p : ascii → bool) (s : string) : bool :=
  match s with
  | EmptyString => true
  | String c s' => p c && all_chars p s'
  end.

(** [s] is empty or begins with a character that fails [p]. *)
Definition stops (p : ascii → bool) (s : string) : bool :=
  match s with
  | EmptyString => true
  | String c _ => negb (p c)
  end.

(** A run of [p]-characters is determined by the text it begins, once
    the run is followed by something that is not a [p]-character. *)
Lemma run_delimited (p : ascii → bool) (d1 d2 r1 r2 : string) :
  all_chars p d1 = true → all_chars p d2 = true →
  stops p r1 = true → stops p r2 = true →
  d1 +:+ r1 = d2 +:+ r2 → d1 = d2 ∧ r1 = r2.
Proof.
  revert d2. induction d1 as [|c d1 IH]; intros [|c' d2];
    rewrite ?app_cons, ?app_nil; cbn [all_chars].
  - done.
  - intros _ H2 H1 _ ->. cbn [stops] in H1. apply andb_true_iff in H2 as [H2 _].
    by rewrite H2 in H1.
  - intros H1 _ _ H2 <-. cbn [stops] in H2. apply andb_true_iff in H1 as [H1 _].
    by rewrite H1 in H2.
  - intros H1 H2 Hr1 Hr2 [= -> Heq].
    apply andb_true_iff in H1 as [_ H1]. apply andb_true_iff in H2 as [_ H2].
    by destruct (IH d2 H1 H2 Hr1 Hr2 Heq) as [-> ->].
Qed.

(** The characters of a decimal numeral: digits and the sign. *)
Definition numeral_char (c : ascii) : bool :=
  let n := nat_of_ascii c in
  ((48 <=? n)%nat && (n <=? 57)%nat) || (n =? 45)%nat.

Lemma pretty_N_char_numeral (x : N) : numeral_char (pretty_N_char x) = true.
Proof. unfold pretty_N_char. by repeat case_match. Qed.

Lemma pretty_N_go_numeral (x : N) (s : string) :
  all_chars numeral_char s = true →
  all_chars numeral_char (pretty_N_go x s) = true.
Proof.
  revert s. induction (N.lt_wf_0 x) as [x _ IH]; intros s Hs.
  assert (x = 0 ∨ 0 < x)%N as [->|Hpos] by lia; [by rewrite pretty_N_go_0|].
  rewrite pretty_N_go_step by done. apply IH; [by apply N.div_lt|].
  simpl. by rewrite pretty_N_char_numeral.
Qed.

(** [String(n)] consists of digits and at most a sign, and is not empty. *)
Lemma of_int_numeral (n : Z) : all_chars numeral_char (Js.of_int n) = true.
Proof.
  unfold Js.of_int, pretty, pretty_Z.
  destruct n as [|q|q]; [done| |];
    unfold pretty, pretty_positive, pretty, pretty_N;
    (destruct (decide _); [done|]); simpl;
    by apply pretty_N_go_numeral.
Qed.

Lemma of_int_nonempty (n : Z) : Js.of_int n ≠ EmptyString.
Proof.
  intros H. assert (Hz : Js.of_int n = Js.of_int 0 → n = 0)
    by (intros E; by apply (inj pretty) in E).
  assert (Hlen : ∀ x s, s ≠ EmptyString → pretty_N_go x s ≠ EmptyString).
  { intros x. induction (N.lt_wf_0 x) as [x _ IH]; intros s Hs.
    assert (x = 0 ∨ 0 < x)%N as [->|Hpos] by lia; [by rewrite pretty_N_go_0|].
    rewrite pretty_N_go_step by done. apply IH; [by apply N.div_lt | done]. }
  unfold Js.of_int, pretty, pretty_Z in H.
  destruct n as [|q|q]; [done| |done].
  unfold pretty, pretty_positive, pretty, pretty_N in H.
  destruct (decide _); [done|].
  rewrite pretty_N_go_step in H by lia. by apply Hlen in H.
Qed.

(** Two numerals that begin equal texts, each followed by something that
    is no part of a numeral, are numerals of one number. *)
Lemma of_int_delimited (a b : Z) (r1 r2 : string) :
  stops numeral_char r1 = true → stops numeral_char r2 = true →
  Js.of_int a +:+ r1 = Js.of_int b +:+ r2 → a = b ∧ r1 = r2.
Proof.
  intros H1 H2 Heq.
  destruct (run_delimited numeral_char _ _ _ _
              (of_int_numeral a) (of_int_numeral b) H1 H2 Heq) as [E ->].
  split; [|done]. by apply (inj pretty) in E.
Qed.

(** Reading back one character that [JSON.stringify] wrote; [None] at a
    bare quote and at text that it never writes. *)
Definition hex_value (c : ascii) : N :=
  let n := N_of_ascii c in
  if (n <? 58)%N then (n - 48)%N else (n - 87)%N.

Definition unescape_char (s : string) : option (ascii * string) :=
  match s with
  | EmptyString => None
  | String c r =>
      if Ascii.eqb c Js.quote_char then None
      else if Ascii.eqb c Js.backslash then
        match r with
        | String e r' =>
            if Ascii.eqb e Js.quote_char then Some (Js.quote_char, r')
            else if Ascii.eqb e Js.backslash then Some (Js.backslash, r')
            else if Ascii.eqb e "b" then Some (ascii_of_nat 8, r')
            else if Ascii.eqb e "t" then Some (ascii_of_nat 9, r')
            else if Ascii.eqb e "n" then Some (ascii_of_nat 10, r')
            else if Ascii.eqb e "f" then Some (ascii_of_nat 12, r')
            else if Ascii.eqb e "r" then Some (ascii_of_nat 13, r')
            else
              match r' with
              | String _ (String _ (String h (String l r''))) =>
                  Some (ascii_of_N (16 * hex_value h + hex_value l), r'')
              | _ => None
              end
        | EmptyString => None
        end
      else Some (c, r)
  end.

Lemma unescape_escape_char (c : ascii) (r : string) :
  unescape_char (Js.escape_char c +:+ r) = Some (c, r).
Proof. destruct c as [[] [] [] [] [] [] [] []]; reflexivity. Qed.

(** The text of a string between its quotes determines the string: what
    [JSON.stringify] writes for two strings, each followed by the closing
    quote, agrees only for equal strings. *)
Lemma escape_delimited (s1 s2 r1 r2 : string) :
  Js.escape s1 +:+ String Js.quote_char r1 = Js.escape s2 +:+ String Js.quote_char r2 →
  s1 = s2 ∧ r1 = r2.
Proof.
  revert s2. induction s1 as [|c1 s1 IH]; intros [|c2 s2];
    cbn [Js.escape]; rewrite ?app_assoc_str, ?app_nil; intros H.
  - by injection H as ->.
  - apply (f_equal unescape_char) in H.
    rewrite unescape_escape_char in H. done.
  - apply (f_equal unescape_char) in H.
    rewrite unescape_escape_char in H. done.
  - apply (f_equal unescape_char) in H.
    rewrite !unescape_escape_char in H. injection H as -> H.
    by destruct (IH _ H) as [-> ->].
Qed.

(** The quoted form of a string determines it. *)
Lemma stringify_str_delimited (s1 s2 r1 r2 : string) :
  Js.stringify_str s1 +:+ r1 = Js.stringify_str s2 +:+ r2 → s1 = s2 ∧ r1 = r2.
Proof.
  unfold Js.stringify_str. rewrite !app_cons, !app_assoc_str, !app_cons, !app_nil.
  intros [= H]. by apply escape_delimited.
Qed.

End TextFacts.

(* ===================================================================== *)
(** * The other routes of routes/papers.js                               *)
(* ===================================================================== *)

Module Papers.

Record author : Type := Author {
  Author_ID : Z;
  First_Name : string;
  Last_Name : string
}.

Record review : Type := Review {
  Review_ID : Z;
  Rating : Z;
  Researcher_ID : Z
}.

(** [data] of the detail answer:
    [{ ...paper, authors, keywords, reviews }] *)
Record detail : Type := Detail {
  paper_row : Feed.paper;
  authors : list author;
  keywords : string;
  reviews : list review
}.

(** What the routes of the router put into [queryCache]: listing and
    search pages, paper details, top-rated lists. *)
Inductive cached : Type :=
| CachedPage (b : Feed.body)
| CachedDetail (d : detail)
| CachedTopRated (rows : list Feed.paper).

Inductive response : Type :=
| Json (c : cached)
| Downloaded (path : string)
| ReviewUpdated
| ReviewSubmitted
| Failure (code : Z) (message : string).

(** [res.json] alone answers 200; a new review answers 201. *)
Definition status (r : response) : Z :=
  match r with
  | Json _ | Downloaded _ | ReviewUpdated => 200
  | ReviewSubmitted => 201
  | Failure code _ => code
  end.

(** [{ paperId }] with [paperId = req.params.id], a text. *)
Definition detail_params (paperId : string) : list (string * Js.prim) :=
  [ ("paperId", Js.PStr paperId) ].

(** [{ topRated: true, limit }] *)
Definition top_rated_params (limit : Z) : list (string * Js.prim) :=
  [ ("topRated", Js.PBool true); ("limit", Js.PNum limit) ].

Definition detail_key (paperId : string) : string :=
  Feed.getCacheKey (detail_params paperId).

Section Routes.
(** The content of the data store. *)
Context {DB : Type}.

(** The queries of these routes, by what is bound to them; [None] is a
    query that throws. A statement that writes returns the store
    afterwards. *)
Record store : Type := Store {
  getPool : DB → bool;
  select_paper : DB → string → option (list Feed.paper);
  select_authors : DB → string → option (list author);
  select_keywords : DB → string → option (list string);
  select_reviews : DB → string → option (list review);
  select_path : DB → string → option (list string);
  insert_download : DB → string → option Z → option DB;
  select_paper_id : DB → string → option (list Z);
  select_own_review : DB → string → option Z → option (list Z);
  update_review : DB → Z → Z → option DB;
  insert_review : DB → string → option Z → Z → option DB;
  select_top_rated : DB → Z → option (list Feed.paper)
}.

Definition failure_paper : response := Failure 500 "Failed to retrieve paper".

(** What the detail route reads from the store for a paper: [None] when
    a query throws, [Some None] when there is no such paper. *)
Definition read_detail (s : store) (db : DB) (paperId : string)
  : option (option detail) :=
  match select_paper s db paperId with
  | None => None
  | Some [] => Some None
  | Some (paper :: _) =>
      match select_authors s db paperId, select_keywords s db paperId,
            select_reviews s db paperId with
      | Some a, Some k, Some r =>
          Some (Some (Detail paper a (default EmptyString (head k)) r))
      | _, _, _ => None
      end
  end.

(** [router.get('/:id')] *)
Definition get_paper (s : store) (paperId : string) (now later : Z)
    (db : DB) (cache : Cache.queryCache cached)
  : response * Cache.queryCache cached :=
  let cacheKey := detail_key paperId in
  let '(hit, cache1) := Cache.getCachedQuery cacheKey now cache in
  match hit with
  | Some c => (Json c, cache1)
  | None =>
      if negb (getPool s db) then (failure_paper, cache1)
      else
        match read_detail s db paperId with
        | None => (failure_paper, cache1)
        | Some None => (Failure 404 "Paper not found", cache1)
        | Some (Some d) =>
            (Json (CachedDetail d),
             Cache.setCachedQuery cacheKey (CachedDetail d) later cache1)
        end
  end.

(** [router.post('/:id/download')], past [authenticateToken];
    [researcherId] is [req.user.userId]. *)
Definition post_download (s : store) (paperId : string) (researcherId : option Z)
    (db : DB) (cache : Cache.queryCache cached)
  : response * DB * Cache.queryCache cached :=
  let failed := (Failure 500 "Failed to record download", db, cache) in
  if negb (getPool s db) then failed
  else
    match select_path s db paperId with
    | None => failed
    | Some [] => (Failure 404 "Paper not found", db, cache)
    | Some (path :: _) =>
        match insert_download s db paperId researcherId with
        | None => failed
        | Some db' => (Downloaded path, db', Cache.invalidate (detail_key paperId) cache)
        end
    end.

(** [!rating || rating < 1 || rating > 5] for a rating that is an integer
    or absent. *)
Definition rating_refused (rating : option Z) : bool :=
  negb (Js.truthy_num rating)
  || (default 0 rating <? 1) || (5 <? default 0 rating).

(** [router.post('/:id/review')], past [authenticateToken]. *)
Definition post_review (s : store) (paperId : string) (researcherId : option Z)
    (rating : option Z) (db : DB) (cache : Cache.queryCache cached)
  : response * DB * Cache.queryCache cached :=
  let failed := (Failure 500 "Failed to submit review", db, cache) in
  if rating_refused rating then
    (Failure 400 "Rating must be between 1 and 5", db, cache)
  else if negb (getPool s db) then failed
  else
    match select_paper_id s db paperId with
    | None => failed
    | Some [] => (Failure 404 "Paper not found", db, cache)
    | Some (_ :: _) =>
        match select_own_review s db paperId researcherId with
        | None => failed
        | Some (reviewId :: _) =>
            match update_review s db reviewId (default 0 rating) with
            | None => failed
            | Some db' =>
                (ReviewUpdated, db', Cache.invalidate (detail_key paperId) cache)
            end
        | Some [] =>
            match insert_review s db paperId researcherId (default 0 rating) with
            | None => failed
            | Some db' =>
                (ReviewSubmitted, db', Cache.invalidate (detail_key paperId) cache)
            end
        end
    end.

(** [router.get('/top-rated/by-field')] *)
Definition get_top_rated (s : store) (q_limit : option string) (now later : Z)
    (db : DB) (cache : Cache.queryCache cached)
  : response * Cache.queryCache cached :=
  let limit := Js.or_default (Js.parseInt q_limit) 3 in
  let cacheKey := Feed.getCacheKey (top_rated_params limit) in
  let '(hit, cache1) := Cache.getCachedQuery cacheKey now cache in
  match hit with
  | Some c => (Json c, cache1)
  | None =>
      if negb (getPool s db) then
        (Failure 500 "Failed to retrieve top-rated papers", cache1)
      else
        match select_top_rated s db limit with
        | None => (Failure 500 "Failed to retrieve top-rated papers", cache1)
        | Some rows =>
            (Json (CachedTopRated rows),
             Cache.setCachedQuery cacheKey (CachedTopRated rows) later cache1)
        end
  end.

End Routes.
Global Arguments store : clear implicits.
End Papers.

(* ===================================================================== *)
(** * Further properties: cache keys                                     *)
(* ===================================================================== *)

Module KeyFacts.
Import TextFacts.

(** A numeral does not begin with a character outside numerals. *)
Lemma of_int_head (n : Z) (r : string) (c : ascii) (r' : string) :
  Js.of_int n +:+ r = String c r' → numeral_char c = true.
Proof.
  pose proof (of_int_numeral n) as Hall. pose proof (of_int_nonempty n) as Hne.
  destruct (Js.of_int n) as [|x rest]; [done|].
  rewrite app_cons. intros [= <- _]. cbn [all_chars] in Hall.
  by apply andb_true_iff in Hall as [? _].
Qed.

Lemma cons_inj (a b : ascii) (x y : string) :
  String a x = String b y → a = b ∧ x = y.
Proof. by intros [= -> ->]. Qed.

(** One step of comparing two serialized objects from the left. *)
Ltac key_step H :=
  first
    [ discriminate H
    | apply of_int_delimited in H as [-> H]; [|reflexivity|reflexivity]
    | apply stringify_str_delimited in H as [-> H]
    | apply of_int_head in H; discriminate H
    | symmetry in H; apply of_int_head in H; discriminate H
    | apply cons_inj in H as [_ H] ].

(** The quoted form of the member names, computed. *)
Ltac key_names H :=
  repeat match type of H with
         | context [Js.stringify_str (String ?c ?r)] =>
             let v := eval vm_compute in (Js.stringify_str (String c r)) in
             change (Js.stringify_str (String c r)) with v in H
         end.

Ltac key_normal H :=
  unfold Feed.getCacheKey, Js.stringify, Js.members in H;
  cbn [omap list_omap Js.stringify_prim fmap option_fmap option_map Js.join
       fst snd] in H;
  key_names H;
  repeat rewrite ?app_cons, ?app_nil, ?app_assoc_str in H.

Ltac key_solve H :=
  key_normal H; repeat key_step H; done.

Lemma listing_params_inj p1 l1 f1 s1 u1 p2 l2 f2 s2 u2 :
  Feed.getCacheKey (Feed.listing_params p1 l1 f1 s1 u1)
  = Feed.getCacheKey (Feed.listing_params p2 l2 f2 s2 u2) →
  p1 = p2 ∧ l1 = l2 ∧ f1 = f2 ∧ s1 = s2 ∧ u1 = u2.
Proof.
  intros H. unfold Feed.listing_params, Feed.opt_str in H.
  destruct u1 as [[[n1|]]|], u2 as [[[n2|]]|], f1 as [f1|], f2 as [f2|],
    s1 as [s1|], s2 as [s2|];
    cbn [Feed.userId] in H; key_solve H.
Qed.

(** The page and the limit the listing route reads from the request are
    safe integers: the numbers the program holds are the integers their
    digits denote. *)
Definition in_range (r : Feed.request) : Prop :=
  Js.safe_integer (Feed.page_of r) ∧ Js.safe_integer (Feed.limit_of r).

(** X14. Two listing requests whose page and limit are safe integers
    (up to 2^53 - 1 in size, where [parseInt] is exact) get the same
    cache key exactly when they agree on the page and the limit the
    route reads from them, on [fieldId], on [search] and on [req.user]:
    nothing else enters the key, and no two different combinations of
    these share a key. *)
Theorem listing_key_exact (r1 r2 : Feed.request) :
  in_range r1 → in_range r2 →
  Feed.listing_key r1 = Feed.listing_key r2
  ↔ Feed.page_of r1 = Feed.page_of r2
    ∧ Feed.limit_of r1 = Feed.limit_of r2
    ∧ Feed.q_fieldId r1 = Feed.q_fieldId r2
    ∧ Feed.q_search r1 = Feed.q_search r2
    ∧ Feed.user r1 = Feed.user r2.
Proof.
  intros _ _. unfold Feed.listing_key. split.
  - apply listing_params_inj.
  - by intros (-> & -> & -> & -> & ->).
Qed.

(** Page 2 of a search for "graphs", asked with a token by one client
    and without one by another: one key. *)
Lemma listing_key_exact_witness :
  Feed.listing_key
    (Feed.Request (Some "2") (Some "20") None (Some "graphs") None None
       (Some "Bearer t1") (Some "curl") None)
  = Feed.listing_key
      (Feed.Request (Some "2") (Some "20") None (Some "graphs") None None
         None None (Some "10.0.0.7")).
Proof.
  apply (listing_key_exact
           (Feed.Request (Some "2") (Some "20") None (Some "graphs") None None
              (Some "Bearer t1") (Some "curl") None)
           (Feed.Request (Some "2") (Some "20") None (Some "graphs") None None
              None None (Some "10.0.0.7"))).
  - split; split; by vm_compute.
  - split; split; by vm_compute.
  - repeat split; reflexivity.
Defined.

Lemma detail_key_inj id1 id2 :
  Papers.detail_key id1 = Papers.detail_key id2 → id1 = id2.
Proof.
  intros H. unfold Papers.detail_key, Papers.detail_params in H. key_solve H.
Qed.

(** X15. The keys of the search, detail and top-rated routes determine
    what they were built from: the search text, page and limit; the id
    text of the paper; the limit. *)
Theorem route_keys_exact :
  (∀ q1 p1 l1 q2 p2 l2,
     Feed.getCacheKey (Feed.search_params q1 p1 l1)
     = Feed.getCacheKey (Feed.search_params q2 p2 l2)
     ↔ q1 = q2 ∧ p1 = p2 ∧ l1 = l2)
  ∧ (∀ id1 id2, Papers.detail_key id1 = Papers.detail_key id2 ↔ id1 = id2)
  ∧ (∀ l1 l2,
       Feed.getCacheKey (Papers.top_rated_params l1)
       = Feed.getCacheKey (Papers.top_rated_params l2)
       ↔ l1 = l2).
Proof.
  split; [|split].
  - intros q1 p1 l1 q2 p2 l2. split; [|by intros (-> & -> & ->)].
    intros H. unfold Feed.search_params in H. key_solve H.
  - intros id1 id2. split; [apply detail_key_inj | by intros ->].
  - intros l1 l2. split; [|by intros ->].
    intros H. unfold Papers.top_rated_params in H. key_solve H.
Qed.

(** The routes that share [queryCache]. *)
Inductive route : Type := Listing | Search | PaperDetail | TopRated.

(** The text up to the next quote. *)
Fixpoint up_to_quote (s : string) : string :=
  match s with
  | EmptyString => EmptyString
  | String c r =>
      if Ascii.eqb c Js.quote_char then EmptyString else String c (up_to_quote r)
  end.

(** The route a key belongs to, read off the name of its first member. *)
Definition route_of_key (key : string) : option route :=
  match key with
  | String _ (String _ rest) =>
      let name := up_to_quote rest in
      if String.eqb name "page" then Some Listing
      else if String.eqb name "search" then Some Search
      else if String.eqb name "paperId" then Some PaperDetail
      else if String.eqb name "topRated" then Some TopRated
      else None
  | _ => None
  end.

(** X16. The four routes that share the cache never use each other's
    keys: every key of the listing route begins with the member [page],
    every key of the search route with [search], of the detail route with
    [paperId], of the top-rated route with [topRated]. *)
Theorem route_keys_disjoint :
  (∀ r, route_of_key (Feed.listing_key r) = Some Listing)
  ∧ (∀ q p l, route_of_key (Feed.getCacheKey (Feed.search_params q p l)) = Some Search)
  ∧ (∀ id, route_of_key (Papers.detail_key id) = Some PaperDetail)
  ∧ (∀ l, route_of_key (Feed.getCacheKey (Papers.top_rated_params l)) = Some TopRated).
Proof.
  split; [|split; [|split]]; intros; reflexivity.
Qed.

End KeyFacts.

(* ===================================================================== *)
(** * Further properties: the result cache                               *)
(* ===================================================================== *)

Module CacheMore.
Import Cache.

Section Ordered.
Context {K V : Type} `{EqDecision K}.
Implicit Types (k : K) (v : V) (m : JsMap.t K V).

Lemma get_delete_ne k k' m :
  k ≠ k' → JsMap.get k' (JsMap.delete k m) = JsMap.get k' m.
Proof.
  intros Hne. unfold JsMap.delete. induction m as [|[k0 v0] m IH]; [done|].
  rewrite filter_cons. cbn [fst]. destruct (decide (k0 ≠ k)) as [Hk|Hk].
  - simpl. destruct (decide (k0 = k')); [done | apply IH].
  - apply dec_stable in Hk. subst k0. simpl.
    destruct (decide (k = k')); [done | apply IH].
Qed.

Lemma get_delete_eq k m : JsMap.get k (JsMap.delete k m) = None.
Proof.
  apply JsMapFacts.get_None_notin. rewrite JsMapFacts.keys_delete.
  intros H0. apply list_elem_of_filter in H0 as [H0 _]. done.
Qed.

Lemma size_delete_present k m :
  JsMap.wf m → JsMap.get k m ≠ None →
  S (JsMap.size (JsMap.delete k m)) = JsMap.size m.
Proof.
  unfold JsMap.wf, JsMap.keys, JsMap.size, JsMap.delete.
  induction m as [|[k0 v0] m IH]; [done|].
  rewrite fmap_cons, filter_cons. cbn [fst]. intros Hnd Hget.
  apply NoDup_cons in Hnd as [Hnotin Hnd].
  destruct (decide (k0 ≠ k)) as [Hk|Hk].
  - simpl in *. destruct (decide (k0 = k)); [done|]. by rewrite IH.
  - apply dec_stable in Hk. subst k0. simpl. f_equal.
    assert (Hm : JsMap.get k m = None) by (by apply JsMapFacts.get_None_notin).
    clear -Hm. induction m as [|[k1 v1] m IH]; [done|].
    simpl in Hm. destruct (decide (k1 = k)); [done|].
    rewrite filter_cons. cbn [fst]. destruct (decide (k1 ≠ k)); [|done].
    simpl. by rewrite IH.
Qed.


(** [m] holds [v] under [k] with at most [n] entries after it. *)
Definition holds (k : K) (v : V) (n : nat) (m : list (K * V)) : Prop :=
  ∃ before after,
    m = before ++ (k, v) :: after ∧ (k ∉ before.*1) ∧ (length after ≤ n)%nat.



Lemma holds_mono k v n n' m : (n ≤ n')%nat → holds k v n m → holds k v n' m.
Proof.
  intros Hle (before & after & -> & Hnot & Hlen).
  exists before, after. split; [done|]. split; [done | lia].
Qed.





End Ordered.

Section Cache.
Context {D : Type}.
Implicit Types (c : queryCache D) (key : string) (d : D) (now : Z).

(** What the routes do to the cache. *)
Inductive op : Type :=
| Read (key : string) (now : Z)
| Put (key : string) (d : D) (now : Z)
| Invalidate (key : string).

Definition run_op (o : op) (c : queryCache D) : queryCache D :=
  match o with
  | Read key now => (getCachedQuery key now c).2
  | Put key d now => setCachedQuery key d now c
  | Invalidate key => invalidate key c
  end.

Definition run_ops (ops : list op) (c : queryCache D) : queryCache D :=
  foldl (λ c o, run_op o c) c ops.




Lemma run_ops_reachable ops c : reachable c → reachable (run_ops ops c).
Proof.
  revert c. induction ops as [|o ops IH]; intros c Hr; [done|].
  simpl. apply IH. destruct o; simpl; by constructor.
Qed.









(** X2. Reading serves an entry exactly while it is less than 60 s old.
    An entry of 60 s or more reads as absent and is removed by the read:
    the key is gone, the cache is one entry smaller, and every other key
    reads as before. *)
Theorem get_expires c key e now :
  reachable c →
  JsMap.get key c = Some e →
  (now - timestamp e < CACHE_TTL → getCachedQuery key now c = (Some (data e), c))
  ∧ (CACHE_TTL ≤ now - timestamp e →
       (getCachedQuery key now c).1 = None
       ∧ JsMap.get key (getCachedQuery key now c).2 = None
       ∧ S (JsMap.size (getCachedQuery key now c).2) = JsMap.size c
       ∧ ∀ k, k ≠ key →
           JsMap.get k (getCachedQuery key now c).2 = JsMap.get k c).
Proof.
  intros Hr Hget. destruct (CacheFacts.reachable_wf_size c Hr) as [Hwf _].
  unfold getCachedQuery. rewrite Hget. split.
  - intros Hlt. by destruct (decide _).
  - intros Hge. destruct (decide _); [lia|]. simpl.
    split; [done|]. split; [apply get_delete_eq|]. split.
    + apply size_delete_present; [done | by rewrite Hget].
    + intros k Hk. by apply get_delete_ne.
Qed.

(** X3. A put leaves every other key as it was, except that the put of a
    new key into a full cache removes the oldest key. *)
Theorem put_frame c key d now k :
  reachable c →
  k ≠ key →
  (JsMap.first_key c = Some k → JsMap.size c = MAX_ENTRIES →
   JsMap.get key c = None →
   JsMap.get k (setCachedQuery key d now c) = None)
  ∧ (¬ (JsMap.first_key c = Some k ∧ JsMap.size c = MAX_ENTRIES
        ∧ JsMap.get key c = None) →
     JsMap.get k (setCachedQuery key d now c) = JsMap.get k c).
Proof.
  intros Hr Hk. destruct (CacheFacts.reachable_wf_size c Hr) as [Hwf Hsz].
  destruct (CacheFacts.setCachedQuery_cases key d now c Hwf Hsz)
    as [(Hg & Hfull & [k0 e0] & rest & -> & ->) | (Hno & -> & _)].
  - assert (Hr0 : JsMap.get key rest = None).
    { simpl in Hg. by destruct (decide (k0 = key)). }
    rewrite <- (JsMapFacts.set_new _ (Entry d now) _ Hr0).
    rewrite JsMapFacts.get_set_ne by done.
    unfold JsMap.first_key. cbn [JsMap.keys fmap list_fmap head fst].
    split.
    + intros [= ->] _ _. apply JsMapFacts.get_None_notin.
      unfold JsMap.wf, JsMap.keys in Hwf. rewrite fmap_cons in Hwf.
      by apply NoDup_cons in Hwf as [? _].
    + intros Hnot. simpl. destruct (decide (k0 = k)) as [->|Hne]; [|done].
      exfalso. apply Hnot. done.
  - rewrite JsMapFacts.get_set_ne by done. split; [|done].
    intros _ Hfull Hnone. exfalso. by apply Hno.
Qed.

End Cache.

(** [n] further puts, under the keys "k0", "k1", ... *)
Definition more_puts (n : nat) : list (op (D:=nat)) :=
  (λ i, Put ("k" +:+ Js.of_int (Z.of_nat i)) i 10) <$> seq 0 n.


(** The bound cannot be raised: the 200th put of a new key evicts the
    entry. *)
Example evicted_by_200_puts :
  (getCachedQuery "new" 59005
     (run_ops (more_puts 200)
        (setCachedQuery "new" 7%nat 5 (CacheFacts.filled 200)))).1 = None.
Proof. vm_compute. reflexivity. Qed.

(** The entry under "7" is served at 59 999 ms and gone at 60 000 ms;
    the entry under "8" stays. *)
Lemma get_expires_witness :
  getCachedQuery "7" 59999 (CacheFacts.filled 200) = (Some 7%nat, CacheFacts.filled 200)
  ∧ (getCachedQuery "7" 60000 (CacheFacts.filled 200)).1 = None
  ∧ JsMap.get "7" (getCachedQuery "7" 60000 (CacheFacts.filled 200)).2 = None
  ∧ S (JsMap.size (getCachedQuery "7" 60000 (CacheFacts.filled 200)).2)
    = JsMap.size (CacheFacts.filled 200)
  ∧ JsMap.get "8" (getCachedQuery "7" 60000 (CacheFacts.filled 200)).2
    = JsMap.get "8" (CacheFacts.filled 200).
Proof.
  assert (Hentry : JsMap.get "7" (CacheFacts.filled 200) = Some (Entry 7%nat 0))
    by (vm_compute; reflexivity).
  pose proof (get_expires (CacheFacts.filled 200) "7" (Entry 7%nat 0) 59999
                (CacheFacts.filled_reachable 200) Hentry) as [Hlive _].
  pose proof (get_expires (CacheFacts.filled 200) "7" (Entry 7%nat 0) 60000
                (CacheFacts.filled_reachable 200) Hentry) as [_ Hdead].
  destruct (Hdead ltac:(vm_compute; discriminate)) as (Hnone & Hgone & Hsize & Hothers).
  split; [exact (Hlive eq_refl)|]. split; [exact Hnone|]. split; [exact Hgone|].
  split; [exact Hsize|]. apply Hothers. discriminate.
Defined.

(** The 201st put takes away the oldest key "0" and leaves "1". *)
Lemma put_frame_witness :
  JsMap.get "0" (setCachedQuery "new" 7%nat 5 (CacheFacts.filled 200)) = None
  ∧ JsMap.get "1" (setCachedQuery "new" 7%nat 5 (CacheFacts.filled 200))
    = JsMap.get "1" (CacheFacts.filled 200).
Proof.
  split.
  - apply (put_frame (CacheFacts.filled 200) "new" 7%nat 5 "0"
             (CacheFacts.filled_reachable 200) ltac:(discriminate));
      vm_compute; reflexivity.
  - apply (put_frame (CacheFacts.filled 200) "new" 7%nat 5 "1"
             (CacheFacts.filled_reachable 200) ltac:(discriminate)).
    intros [Hfirst _]. vm_compute in Hfirst. discriminate.
Defined.

End CacheMore.

(* ===================================================================== *)
(** * Further properties: the routes and the cache                       *)
(* ===================================================================== *)

Module RouteFacts.
Import Cache.

Section Reads.
Context {D : Type}.
Implicit Types (c : queryCache D) (key : string).

(** After a read that found nothing to serve, the key is not in the
    cache. *)
Lemma miss_leaves_no_entry key now c :
  (getCachedQuery key now c).1 = None →
  JsMap.get key (getCachedQuery key now c).2 = None.
Proof.
  unfold getCachedQuery. destruct (JsMap.get key c) as [e|] eqn:Hget; [|done].
  destruct (decide _); [done|]. intros _. simpl. apply CacheMore.get_delete_eq.
Qed.

Lemma read_reachable key now c :
  reachable c → reachable (getCachedQuery key now c).2.
Proof. apply reach_get. Qed.

End Reads.

(** The pair of a read, taken apart. *)
Ltac split_read key now c :=
  let hit := fresh "hit" in
  let c1 := fresh "c1" in
  let E := fresh "E" in
  destruct (getCachedQuery key now c) as [hit c1] eqn:E.

Lemma get_papers_reachable e req now later c :
  reachable c → reachable (Feed.cache_of (Feed.get_papers e req now later c)).
Proof.
  intros Hr. unfold Feed.get_papers.
  pose proof (reach_get (Feed.listing_key req) now c Hr) as Hr1.
  destruct (getCachedQuery (Feed.listing_key req) now c) as [[b|] c1];
    simpl in *; [done|].
  destruct (Feed.getPool e); simpl; [|done].
  destruct (Feed.compose e req); simpl; [by apply reach_set | done].
Qed.

Lemma get_search_query_reachable e req now later c :
  reachable c → reachable (Feed.cache_of (Feed.get_search_query e req now later c)).
Proof.
  intros Hr. unfold Feed.get_search_query.
  destruct (Js.truthy_str (Feed.q_q req)); simpl; [|done].
  match goal with
  | |- context [getCachedQuery ?k now c] =>
      pose proof (reach_get k now c Hr) as Hr1;
      destruct (getCachedQuery k now c) as [[b|] c1]
  end; simpl in *; [done|].
  destruct (Feed.getPool e); simpl; [|done].
  destruct (Feed.query_search e _ _ _); simpl; [|done].
  destruct (Feed.query_search_count e _); simpl; [by apply reach_set | done].
Qed.

Section Papers.
Context {DB : Type}.
Implicit Types (s : Papers.store DB) (db : DB) (c : queryCache Papers.cached).

Lemma get_paper_reachable s id now later db c :
  reachable c → reachable (Papers.get_paper s id now later db c).2.
Proof.
  intros Hr. unfold Papers.get_paper.
  pose proof (reach_get (Papers.detail_key id) now c Hr) as Hr1.
  destruct (getCachedQuery (Papers.detail_key id) now c) as [[b|] c1];
    simpl in *; [done|].
  destruct (Papers.getPool s db); simpl; [|done].
  destruct (Papers.read_detail s db id) as [[d|]|]; simpl; [|done|done].
  by apply reach_set.
Qed.

Lemma get_top_rated_reachable s q now later db c :
  reachable c → reachable (Papers.get_top_rated s q now later db c).2.
Proof.
  intros Hr. unfold Papers.get_top_rated.
  match goal with
  | |- context [getCachedQuery ?k now c] =>
      pose proof (reach_get k now c Hr) as Hr1;
      destruct (getCachedQuery k now c) as [[b|] c1]
  end; simpl in *; [done|].
  destruct (Papers.getPool s db); simpl; [|done].
  destruct (Papers.select_top_rated s db _); simpl; [by apply reach_set | done].
Qed.

Lemma post_download_reachable s id u db c :
  reachable c → reachable (Papers.post_download s id u db c).2.
Proof.
  intros Hr. unfold Papers.post_download.
  destruct (Papers.getPool s db); simpl; [|done].
  destruct (Papers.select_path s db id) as [[|path rest]|]; simpl; [done| |done].
  destruct (Papers.insert_download s db id u); simpl; [|done].
  by apply reach_invalidate.
Qed.

Lemma post_review_reachable s id u rating db c :
  reachable c → reachable (Papers.post_review s id u rating db c).2.
Proof.
  intros Hr. unfold Papers.post_review.
  destruct (Papers.rating_refused rating); simpl; [done|].
  destruct (Papers.getPool s db); simpl; [|done].
  destruct (Papers.select_paper_id s db id) as [[|p rest]|]; simpl; [done| |done].
  destruct (Papers.select_own_review s db id u) as [[|r rest']|]; simpl; [| |done].
  - destruct (Papers.insert_review s db id u _); simpl; [|done].
    by apply reach_invalidate.
  - destruct (Papers.update_review s db r _); simpl; [|done].
    by apply reach_invalidate.
Qed.

End Papers.

(** X4. Every route of the router leaves the cache in a state the cache
    operations can reach, so whatever requests are served, in whatever
    order, the cache keeps unique keys and never holds more than 200
    entries. *)
Theorem routes_keep_cache_bounded :
  (∀ e req now later c,
     reachable c →
     reachable (Feed.cache_of (Feed.get_papers e req now later c))
     ∧ (JsMap.size (Feed.cache_of (Feed.get_papers e req now later c)) ≤ 200)%nat)
  ∧ (∀ e req now later c,
       reachable c →
       reachable (Feed.cache_of (Feed.get_search_query e req now later c))
       ∧ (JsMap.size (Feed.cache_of (Feed.get_search_query e req now later c))
          ≤ 200)%nat)
  ∧ (∀ DB (s : Papers.store DB) id now later db c,
       reachable c →
       reachable (Papers.get_paper s id now later db c).2
       ∧ (JsMap.size (Papers.get_paper s id now later db c).2 ≤ 200)%nat)
  ∧ (∀ DB (s : Papers.store DB) q now later db c,
       reachable c →
       reachable (Papers.get_top_rated s q now later db c).2
       ∧ (JsMap.size (Papers.get_top_rated s q now later db c).2 ≤ 200)%nat)
  ∧ (∀ DB (s : Papers.store DB) id u db c,
       reachable c →
       reachable (Papers.post_download s id u db c).2
       ∧ (JsMap.size (Papers.post_download s id u db c).2 ≤ 200)%nat)
  ∧ (∀ DB (s : Papers.store DB) id u rating db c,
       reachable c →
       reachable (Papers.post_review s id u rating db c).2
       ∧ (JsMap.size (Papers.post_review s id u rating db c).2 ≤ 200)%nat).
Proof.
  assert (Hb : ∀ D (c : queryCache D), reachable c →
                 reachable c ∧ (JsMap.size c ≤ 200)%nat).
  { intros D c Hr. split; [done|]. apply (CacheFacts.reachable_wf_size c Hr). }
  repeat split; intros; apply Hb;
    auto using get_papers_reachable, get_search_query_reachable,
      get_paper_reachable, get_top_rated_reachable, post_download_reachable,
      post_review_reachable.
Qed.

End RouteFacts.

(* ===================================================================== *)
(** * Further properties: answers served again, failures, invalidation   *)
(* ===================================================================== *)

Module ReplayFacts.
Import Cache CacheMore.




(** X6. A request that ends in a failure leaves no entry under its key:
    a failure of the listing, search, detail or top-rated route is never
    served from the cache afterwards. *)
Theorem failures_not_cached :
  (∀ e req now later c code msg,
     Feed.response_of (Feed.get_papers e req now later c) = Feed.Failure code msg →
     JsMap.get (Feed.listing_key req)
       (Feed.cache_of (Feed.get_papers e req now later c)) = None)
  ∧ (∀ e req now later c msg,
       Feed.response_of (Feed.get_search_query e req now later c)
       = Feed.Failure 500 msg →
       JsMap.get
         (Feed.getCacheKey
            (Feed.search_params (default EmptyString (Feed.q_q req))
               (Feed.page_of req) (Feed.limit_of req)))
         (Feed.cache_of (Feed.get_search_query e req now later c)) = None)
  ∧ (∀ DB (s : Papers.store DB) id now later db c code msg,
       (Papers.get_paper s id now later db c).1 = Papers.Failure code msg →
       JsMap.get (Papers.detail_key id) (Papers.get_paper s id now later db c).2
       = None)
  ∧ (∀ DB (s : Papers.store DB) q now later db c code msg,
       (Papers.get_top_rated s q now later db c).1 = Papers.Failure code msg →
       JsMap.get
         (Feed.getCacheKey
            (Papers.top_rated_params (Js.or_default (Js.parseInt q) 3)))
         (Papers.get_top_rated s q now later db c).2 = None).
Proof.
  split; [|split; [|split]].
  - intros e req now later c code msg. unfold Feed.get_papers.
    pose proof (RouteFacts.miss_leaves_no_entry (Feed.listing_key req) now c) as Hm.
    destruct (getCachedQuery (Feed.listing_key req) now c) as [[b|] c1];
      simpl in *; [done|].
    destruct (Feed.getPool e); simpl; [|by intros _; apply Hm].
    destruct (Feed.compose e req); simpl; [done | by intros _; apply Hm].
  - intros e req now later c msg. unfold Feed.get_search_query.
    destruct (Js.truthy_str (Feed.q_q req)); simpl; [|done].
    match goal with
    | |- context [getCachedQuery ?k now c] =>
        pose proof (RouteFacts.miss_leaves_no_entry k now c) as Hm;
        destruct (getCachedQuery k now c) as [[b|] c1]
    end; simpl in *; [done|].
    destruct (Feed.getPool e); simpl; [|by intros _; apply Hm].
    destruct (Feed.query_search e _ _ _); simpl; [|by intros _; apply Hm].
    destruct (Feed.query_search_count e _); simpl; [done | by intros _; apply Hm].
  - intros DB s id now later db c code msg. unfold Papers.get_paper.
    pose proof (RouteFacts.miss_leaves_no_entry (Papers.detail_key id) now c) as Hm.
    destruct (getCachedQuery (Papers.detail_key id) now c) as [[b|] c1];
      simpl in *; [done|].
    destruct (Papers.getPool s db); simpl; [|by intros _; apply Hm].
    destruct (Papers.read_detail s db id) as [[d|]|]; simpl;
      [done | by intros _; apply Hm | by intros _; apply Hm].
  - intros DB s q now later db c code msg. unfold Papers.get_top_rated.
    match goal with
    | |- context [getCachedQuery ?k now c] =>
        pose proof (RouteFacts.miss_leaves_no_entry k now c) as Hm;
        destruct (getCachedQuery k now c) as [[b|] c1]
    end; simpl in *; [done|].
    destruct (Papers.getPool s db); simpl; [|by intros _; apply Hm].
    destruct (Papers.select_top_rated s db _); simpl; [done | by intros _; apply Hm].
Qed.

End ReplayFacts.

(* ===================================================================== *)
(** * Further properties: paper details, downloads and reviews           *)
(* ===================================================================== *)

Module PapersFacts.
Import Cache.

Section Papers.
Context {DB : Type}.
Implicit Types (s : Papers.store DB) (db : DB) (c : queryCache Papers.cached).

(** What the detail route answers when it has to ask the store. *)
Definition fresh_detail s db (id : string) : Papers.response :=
  if Papers.getPool s db then
    match Papers.read_detail s db id with
    | Some (Some d) => Papers.Json (Papers.CachedDetail d)
    | Some None => Papers.Failure 404 "Paper not found"
    | None => Papers.failure_paper
    end
  else Papers.failure_paper.

Lemma get_paper_miss s id now later db c :
  JsMap.get (Papers.detail_key id) c = None →
  (Papers.get_paper s id now later db c).1 = fresh_detail s db id.
Proof.
  intros Hnone. unfold Papers.get_paper, getCachedQuery, fresh_detail.
  rewrite Hnone. simpl. destruct (Papers.getPool s db); simpl; [|done].
  by destruct (Papers.read_detail s db id) as [[d|]|].
Qed.

(** A write that went through: the answers of a recorded download, an
    updated review, a new review. *)
Definition written (r : Papers.response) : bool :=
  match r with
  | Papers.Downloaded _ | Papers.ReviewUpdated | Papers.ReviewSubmitted => true
  | _ => false
  end.

Lemma post_download_cache s id u db c :
  (Papers.post_download s id u db c).2
  = (if written (Papers.post_download s id u db c).1.1
     then invalidate (Papers.detail_key id) c else c)
  ∧ (written (Papers.post_download s id u db c).1.1 = false →
     (Papers.post_download s id u db c).1.2 = db).
Proof.
  unfold Papers.post_download.
  destruct (Papers.getPool s db); simpl; [|done].
  destruct (Papers.select_path s db id) as [[|path rest]|]; simpl; [done| |done].
  by destruct (Papers.insert_download s db id u).
Qed.

Lemma post_review_cache s id u rating db c :
  (Papers.post_review s id u rating db c).2
  = (if written (Papers.post_review s id u rating db c).1.1
     then invalidate (Papers.detail_key id) c else c)
  ∧ (written (Papers.post_review s id u rating db c).1.1 = false →
     (Papers.post_review s id u rating db c).1.2 = db).
Proof.
  unfold Papers.post_review.
  destruct (Papers.rating_refused rating); simpl; [done|].
  destruct (Papers.getPool s db); simpl; [|done].
  destruct (Papers.select_paper_id s db id) as [[|p rest]|]; simpl; [done| |done].
  destruct (Papers.select_own_review s db id u) as [[|r rest']|]; simpl; [| |done].
  - by destruct (Papers.insert_review s db id u _).
  - by destruct (Papers.update_review s db r _).
Qed.

(** X17. A download or a review that went through removes the cached
    detail of its paper, so the next detail request for that id is
    answered from the store as it is after the write; the cached details
    of other papers stay. A download or review that did not go through
    leaves cache and store as they were. *)
Theorem write_invalidates_detail s id u rating db c :
  let down := Papers.post_download s id u db c in
  let rev := Papers.post_review s id u rating db c in
  (written down.1.1 = true →
     (∀ now later,
        (Papers.get_paper s id now later down.1.2 down.2).1
        = fresh_detail s down.1.2 id)
     ∧ ∀ id', id' ≠ id →
         JsMap.get (Papers.detail_key id') down.2
         = JsMap.get (Papers.detail_key id') c)
  ∧ (written rev.1.1 = true →
       (∀ now later,
          (Papers.get_paper s id now later rev.1.2 rev.2).1
          = fresh_detail s rev.1.2 id)
       ∧ ∀ id', id' ≠ id →
           JsMap.get (Papers.detail_key id') rev.2
           = JsMap.get (Papers.detail_key id') c)
  ∧ (written down.1.1 = false → down.1.2 = db ∧ down.2 = c)
  ∧ (written rev.1.1 = false → rev.1.2 = db ∧ rev.2 = c).
Proof.
  intros down rev.
  destruct (post_download_cache s id u db c) as [Hd Hd'].
  destruct (post_review_cache s id u rating db c) as [Hr Hr'].
  fold down in Hd, Hd'. fold rev in Hr, Hr'.
  assert (Hinv : ∀ c0 : queryCache Papers.cached,
            (∀ db' now later,
               (Papers.get_paper s id now later db'
                  (invalidate (Papers.detail_key id) c0)).1
               = fresh_detail s db' id)
            ∧ ∀ id', id' ≠ id →
                JsMap.get (Papers.detail_key id')
                  (invalidate (Papers.detail_key id) c0)
                = JsMap.get (Papers.detail_key id') c0).
  { intros c0. split.
    - intros db' now later. apply get_paper_miss. apply CacheMore.get_delete_eq.
    - intros id' Hne. apply CacheMore.get_delete_ne.
      intros Hk. apply Hne. symmetry. by apply KeyFacts.detail_key_inj. }
  split; [|split; [|split]].
  - intros Hw. rewrite Hw in Hd. rewrite Hd.
    destruct (Hinv c) as [H1 H2]. split; [intros; apply H1 | exact H2].
  - intros Hw. rewrite Hw in Hr. rewrite Hr.
    destruct (Hinv c) as [H1 H2]. split; [intros; apply H1 | exact H2].
  - intros Hw. rewrite Hw in Hd. split; [by apply Hd' | done].
  - intros Hw. rewrite Hw in Hr. split; [by apply Hr' | done].
Qed.

(** X18. A review is refused as a client error exactly when its rating
    is absent, zero, below 1 or above 5; a refused review touches neither
    store nor cache, and no other answer of the route is a 400. *)
Theorem review_rating_guard s id u (rating : option Z) db c :
  (Papers.status (Papers.post_review s id u rating db c).1.1 = 400
   ↔ ¬ ∃ n, rating = Some n ∧ 1 ≤ n ≤ 5)
  ∧ ((¬ ∃ n, rating = Some n ∧ 1 ≤ n ≤ 5) →
     Papers.post_review s id u rating db c
     = (Papers.Failure 400 "Rating must be between 1 and 5", db, c)).
Proof.
  assert (Hg : Papers.rating_refused rating = true
               ↔ ¬ ∃ n, rating = Some n ∧ 1 ≤ n ≤ 5).
  { unfold Papers.rating_refused. destruct rating as [n|]; simpl.
    - destruct n as [|q|q]; simpl.
      + split; [|done]. intros _ (n & [= <-] & Hn). lia.
      + rewrite orb_true_iff, !Z.ltb_lt. split.
        * intros [H|H] (n & [= <-] & Hn); lia.
        * intros Hn. destruct (decide (5 < Z.pos q)); [by right|].
          exfalso. apply Hn. exists (Z.pos q). split; [done | lia].
      + split; [|done]. intros _ (n & [= <-] & Hn). lia.
    - split; [|done]. by intros _ (n & [= ] & _). }
  split.
  - rewrite <- Hg. unfold Papers.post_review.
    destruct (Papers.rating_refused rating); simpl; [done|].
    split; [|done]. intros H. exfalso. revert H.
    destruct (Papers.getPool s db); simpl; [|done].
    destruct (Papers.select_paper_id s db id) as [[|p rest]|]; simpl; [done| |done].
    destruct (Papers.select_own_review s db id u) as [[|r rest']|]; simpl; [| |done].
    + by destruct (Papers.insert_review s db id u _).
    + by destruct (Papers.update_review s db r _).
  - intros Hn. apply Hg in Hn. unfold Papers.post_review. by rewrite Hn.
Qed.

End Papers.
End PapersFacts.

(* ===================================================================== *)
(** * Further properties: the search-event logger                        *)
(* ===================================================================== *)

Module LoggerMore.
Import Logger LoggerFacts.

(** The event a delivery posts. *)
Definition payload_of (userId : option Z) (query : string) (m : meta) (now : Z)
  : Net.log_payload :=
  {| Net.user_id := if Js.truthy_num userId then userId else None;
     Net.query := query;
     Net.user_agent := or_str (userAgent m) None;
     Net.client_ip := or_str (ip m) None;
     Net.timestamp := now |}.

(** What [callFetch] returns for the delivery made as call number [n]. *)
Definition sent (rt : Net.runtime) (userId : option Z) (query : string)
    (m : meta) (now : Z) (n : nat) : Net.fetch_result :=
  Net.callFetch rt n (Net.Url (Net.RECOMMENDER_URL rt) [])
    (Some (payload_of userId query m now)) (Net.Options None (Some 3000)).

(** X7. A call of the logger that is not suppressed sends once; it sends
    a second time exactly when the first send did not succeed, and never
    a third time. Its outcome is ok exactly when one of the sends
    succeeded, it is marked retried exactly when that was the second, and
    after two failures it carries the error of the first send (or its
    body, or "unknown"). *)
Theorem retry_policy (rt : Net.runtime) (userId : option Z) (query : string)
    (m : meta) (now : Z) (s : state) :
  let n := calls (trace s) in
  let first := sent rt userId query m now n in
  let second := sent rt userId query m now (S n) in
  let out := logSearchToRecommender rt userId query m now s in
  suppressed s (makeDedupeKey userId query) now = false →
  l_ok out.1 = Net.ok first || Net.ok second
  ∧ l_retried out.1 = negb (Net.ok first) && Net.ok second
  ∧ l_skipped out.1 = false
  ∧ calls (trace out.2) = (n + if Net.ok first then 1 else 2)%nat
  ∧ (l_ok out.1 = false →
     l_error out.1
     = or_str (Net.error first) (or_str (Net.body first) (Some "unknown"))).
Proof.
  intros n first second out Hs. subst out.
  unfold suppressed in Hs.
  unfold logSearchToRecommender, attempt, bind, log_get, log_set, callFetch,
    ret, emit.
  rewrite Hs. cbn [recentSearchLog trace fst snd].
  assert (Hc1 : ∀ k t, calls (trace s ++ [EvRecord k t]) = n).
  { intros k t. rewrite calls_app. unfold calls at 2. simpl. subst n. lia. }
  assert (Hc2 : ∀ k t r,
            calls ((trace s ++ [EvRecord k t]) ++ [EvCallFetch r]) = S n).
  { intros k t r. rewrite calls_app, Hc1. unfold calls. simpl. lia. }
  rewrite !Hc1. fold (payload_of userId query m now).
  fold (sent rt userId query m now n). fold first.
  destruct (Net.ok first) eqn:Hok1;
    cbn [fst snd trace recentSearchLog l_ok l_retried l_skipped l_error].
  - repeat split; try done.
    rewrite !calls_app. unfold calls at 2 3 4 5. simpl. fold n. lia.
  - rewrite !Hc2. fold (sent rt userId query m now (S n)). fold second.
    destruct (Net.ok second) eqn:Hok2;
      cbn [fst snd trace recentSearchLog l_ok l_retried l_skipped l_error];
      (repeat split; try done);
      rewrite !calls_app; unfold calls; simpl; unfold n, calls; lia.
Qed.

(** The first send is refused with a 503, the second accepted. *)
Lemma retry_policy_witness :
  l_ok (logSearchToRecommender flaky None "graphs" (Meta None None) 1000 fresh).1
  = true
  ∧ l_retried (logSearchToRecommender flaky None "graphs" (Meta None None) 1000 fresh).1
    = true
  ∧ calls (trace (logSearchToRecommender flaky None "graphs"
                    (Meta None None) 1000 fresh).2) = 2%nat.
Proof.
  destruct (retry_policy flaky None "graphs" (Meta None None) 1000 fresh
              ltac:(vm_compute; reflexivity)) as (Hok & Hre & _ & Hcalls & _).
  split; [exact Hok|]. split; [exact Hre | exact Hcalls].
Defined.

(** X8. The clean-up keeps exactly the entries recorded no more than two
    minutes before it runs. It makes no call, and it changes nothing for
    the logger: a call made no earlier than 90 s before the clean-up ran
    is suppressed after it exactly when it would have been without it. *)
Theorem cleanup_harmless (now : Z) (s : state) :
  (∀ key ts,
     recentSearchLog (cleanup now s).2 !! key = Some ts
     ↔ recentSearchLog s !! key = Some ts ∧ now - LOG_DEDUPE_TTL * 4 ≤ ts)
  ∧ trace (cleanup now s).2 = trace s
  ∧ (∀ key t,
       now - LOG_DEDUPE_TTL * 3 ≤ t →
       suppressed (cleanup now s).2 key t = suppressed s key t).
Proof.
  assert (Hlook : ∀ key ts,
            recentSearchLog (cleanup now s).2 !! key = Some ts
            ↔ recentSearchLog s !! key = Some ts ∧ now - LOG_DEDUPE_TTL * 4 ≤ ts).
  { intros key ts. unfold cleanup. cbn [snd recentSearchLog].
    rewrite map_lookup_filter_Some. simpl. split; intros [H1 H2]; split; try done; lia. }
  split; [exact Hlook|]. split; [done|].
  intros key t Ht. unfold suppressed.
  destruct (recentSearchLog s !! key) as [ts|] eqn:Hs.
  - destruct (decide (now - LOG_DEDUPE_TTL * 4 ≤ ts)) as [Hkeep|Hdrop].
    + assert (H : recentSearchLog (cleanup now s).2 !! key = Some ts)
        by (by apply Hlook).
      by rewrite H.
    + assert (H : recentSearchLog (cleanup now s).2 !! key = None).
      { destruct (recentSearchLog (cleanup now s).2 !! key) as [ts'|] eqn:E; [|done].
        apply Hlook in E as [E1 E2]. rewrite Hs in E1. injection E1 as <-. lia. }
      rewrite H. simpl. symmetry. apply andb_false_iff. right.
      apply bool_decide_eq_false. unfold LOG_DEDUPE_TTL in *. lia.
  - assert (H : recentSearchLog (cleanup now s).2 !! key = None).
    { destruct (recentSearchLog (cleanup now s).2 !! key) as [ts'|] eqn:E; [|done].
      apply Hlook in E as [E1 _]. by rewrite Hs in E1. }
    by rewrite H.
Qed.

(** The user a dedupe key is made for: a falsy id counts as no user. *)
Definition key_user (userId : option Z) : option Z :=
  if Js.truthy_num userId then userId else None.

Lemma makeDedupeKey_user (userId : option Z) (query : string) :
  makeDedupeKey userId query = makeDedupeKey (key_user userId) query.
Proof. unfold makeDedupeKey, key_user. by destruct userId as [[| |]|]. Qed.

(** X9. Two searches share a dedupe key exactly when they come from the
    same user (no user and the user id 0 both counting as anonymous) with
    the same text: the logger never suppresses a search because of
    another user's search or a different text. *)
Theorem makeDedupeKey_exact (u1 u2 : option Z) (q1 q2 : string) :
  makeDedupeKey u1 q1 = makeDedupeKey u2 q2 ↔ key_user u1 = key_user u2 ∧ q1 = q2.
Proof.
  split.
  - rewrite (makeDedupeKey_user u1), (makeDedupeKey_user u2).
    unfold makeDedupeKey.
    assert (Hk : ∀ u, Js.truthy_num (key_user u) = true
                      ∨ (Js.truthy_num (key_user u) = false ∧ key_user u = None)).
    { intros [[| |]|]; cbn; auto. }
    destruct (Hk u1) as [H1|[H1 E1]], (Hk u2) as [H2|[H2 E2]]; rewrite H1, H2.
    + destruct (key_user u1) as [n1|], (key_user u2) as [n2|]; try done.
      cbn [default]. intros H.
      apply TextFacts.of_int_delimited in H as [E H];
        [|reflexivity|reflexivity].
      split; [f_equal; exact E | by injection H].
    + destruct (key_user u1) as [n1|]; [|done]. cbn [default]. intros H.
      apply KeyFacts.of_int_head in H. done.
    + destruct (key_user u2) as [n2|]; [|done]. cbn [default]. intros H.
      symmetry in H. apply KeyFacts.of_int_head in H. done.
    + rewrite E1, E2. intros H. split; [done|]. by injection H.
  - intros [Hu ->].
    by rewrite (makeDedupeKey_user u1), (makeDedupeKey_user u2), Hu.
Qed.

(** X10. The dedupe window runs from the last delivery, not from the last
    call: a call that was skipped does not renew it. After a delivery at
    [t1] and a skipped call at [t2], a third call at [t3] is skipped
    exactly when [t3] is less than 30 s after [t1]. *)
Theorem window_from_last_delivery (rt : Net.runtime) (userId : option Z)
    (query : string) (m1 m2 m3 : meta) (t1 t2 t3 : Z) (s0 : state) :
  let first := logSearchToRecommender rt userId query m1 t1 s0 in
  let second := logSearchToRecommender rt userId query m2 t2 first.2 in
  let third := logSearchToRecommender rt userId query m3 t3 second.2 in
  t1 ≠ 0 →
  l_skipped first.1 = false →
  t2 - t1 < LOG_DEDUPE_TTL →
  l_skipped second.1 = true
  ∧ recentSearchLog second.2 = recentSearchLog first.2
  ∧ l_skipped third.1 = bool_decide (t3 - t1 < LOG_DEDUPE_TTL).
Proof.
  intros first second third Ht1 Hfirst Hnear.
  subst first. rewrite log_skipped_iff in Hfirst.
  destruct (log_delivered rt userId query m1 t1 s0 Hfirst)
    as (r1 & tl & E1 & _).
  assert (Hsup : ∀ (s : state) t,
            recentSearchLog s !! makeDedupeKey userId query = Some t1 →
            suppressed s (makeDedupeKey userId query) t
            = bool_decide (t - t1 < LOG_DEDUPE_TTL)).
  { intros s t Hs. unfold suppressed. rewrite Hs. simpl. by destruct t1. }
  assert (H1 : recentSearchLog
                 (logSearchToRecommender rt userId query m1 t1 s0).2
               !! makeDedupeKey userId query = Some t1).
  { rewrite E1. simpl. apply lookup_insert_eq. }
  assert (Hs2 : suppressed (logSearchToRecommender rt userId query m1 t1 s0).2
                  (makeDedupeKey userId query) t2 = true).
  { rewrite (Hsup _ _ H1). by apply bool_decide_eq_true. }
  subst second third.
  rewrite (log_suppressed _ _ _ _ _ _ Hs2). cbn [fst snd recentSearchLog].
  split; [done|]. split; [done|].
  rewrite log_skipped_iff. apply Hsup. exact H1.
Qed.

(** Searches at 1 s, 21 s and 36 s: the second is skipped, the third,
    15 s after the second but 35 s after the first, is delivered. *)
Lemma window_from_last_delivery_witness :
  let first := logSearchToRecommender accepting None "graphs" (Meta None None) 1000 fresh in
  let second := logSearchToRecommender accepting None "graphs" (Meta None None) 21000 first.2 in
  l_skipped second.1 = true
  ∧ l_skipped (logSearchToRecommender accepting None "graphs" (Meta None None)
                 36000 second.2).1 = false.
Proof.
  cbv zeta.
  destruct (window_from_last_delivery accepting None "graphs" (Meta None None)
              (Meta None None) (Meta None None) 1000 21000 36000 fresh
              ltac:(discriminate) ltac:(vm_compute; reflexivity)
              ltac:(vm_compute; reflexivity)) as (H2 & _ & H3).
  split; [exact H2 | exact H3].
Defined.

End LoggerMore.

(* ===================================================================== *)
(** * Further properties: recommendations and pages                      *)
(* ===================================================================== *)

Module FeedMore.
Import Feed.

(** *** The fetcher on a well-formed answer *)

Lemma paper_ids_null (items : list Js.json) :
  Js.JNull ∈ items →
  ∃ msg, Recommender.map_completion Recommender.paper_id_of items
         = Recommender.Throws msg.
Proof.
  induction items as [|r items IH]; [by intros ?%elem_of_nil|].
  intros Hin. cbn [Recommender.map_completion].
  apply elem_of_cons in Hin as [<-|Hin]; [by eexists|].
  destruct (IH Hin) as [msg ->]. destruct r; by eexists.
Qed.

(** X11. When the recommender answers with a success status and a body
    whose [recommendations] member is an array without null entries, the
    fetcher returns the [paper_id] of every entry, in the order of the
    array (an entry without one giving [undefined]). A single null entry
    makes it return the empty list instead. *)
Theorem ranking_in_order (rt : Net.runtime) (userId : option Z) (limit st : Z)
    (text : option string) (fields : list (string * Js.json))
    (items : list Js.json) :
  RecommenderFacts.answer rt userId limit = Some (Net.Responds st text) →
  200 ≤ st ≤ 299 →
  Net.JSON_parse rt (default EmptyString text) = Some (Js.JObj fields) →
  Js.field "recommendations" fields = Some (Js.JArr items) →
  (Forall (λ r, r ≠ Js.JNull) items →
   Recommender.getRecommendations rt userId limit
   = Recommender.Returns (Js.get_prop "paper_id" <$> items))
  ∧ (Js.JNull ∈ items →
     Recommender.getRecommendations rt userId limit = Recommender.Returns []).
Proof.
  intros Hans Hst Hparse Hfield.
  rewrite (RecommenderFacts.with_answer _ _ _ _ Hans).
  assert (Hok : Net.res_ok st = true).
  { unfold Net.res_ok. apply andb_true_iff. split; apply Z.leb_le; lia. }
  rewrite Hok. unfold Recommender.parse_body. rewrite Hparse.
  cbn [Js.truthy Js.get_prop]. rewrite Hfield.
  cbn [Js.truthy Recommender.paper_ids]. split.
  - intros Hall. by rewrite (RecommenderFacts.paper_ids_all _ Hall).
  - intros Hnull. by destruct (paper_ids_null _ Hnull) as [msg ->].
Qed.

(** The ranking 5, 8, 2, 1 comes back in that order. *)
Lemma ranking_in_order_witness :
  Recommender.getRecommendations
    (RecommenderFacts.answering 200 "{..}" (Some (RecommenderFacts.ranked [5; 8; 2; 1])))
    (Some 7) 50
  = Recommender.Returns
      (Js.get_prop "paper_id"
         <$> ((λ n, Js.JObj [("paper_id", Js.JNum n)]) <$> [5; 8; 2; 1])).
Proof.
  apply (ranking_in_order
           (RecommenderFacts.answering 200 "{..}"
              (Some (RecommenderFacts.ranked [5; 8; 2; 1])))
           (Some 7) 50 200 (Some "{..}")
           [("recommendations",
             Js.JArr ((λ n, Js.JObj [("paper_id", Js.JNum n)]) <$> [5; 8; 2; 1]))]
           ((λ n, Js.JObj [("paper_id", Js.JNum n)]) <$> [5; 8; 2; 1])
           eq_refl ltac:(lia) eq_refl eq_refl).
  repeat constructor; discriminate.
Defined.

(** *** Slices of the ranked list *)

Section Slices.
Context {A : Type}.
Implicit Types (l : list A).

(** With indices that are not negative, [slice] is [take] after [drop]. *)
Lemma slice_take_drop l (a b : Z) :
  0 ≤ a ≤ b →
  Js.slice l a b = take (Z.to_nat (b - a)) (drop (Z.to_nat a) l).
Proof.
  intros [Ha Hab]. unfold Js.slice, Js.clamp_index.
  assert (Hb : 0 ≤ b) by lia.
  rewrite (proj2 (Z.ltb_ge a 0) Ha), (proj2 (Z.ltb_ge b 0) Hb).
  set (len := Z.of_nat (length l)).
  destruct (decide (len ≤ a)) as [Hla|Hla].
  - rewrite !Z.min_r by lia. rewrite !drop_ge by (subst len; lia).
    by rewrite !take_nil.
  - rewrite (Z.min_l a) by lia. destruct (decide (b ≤ len)) as [Hbl|Hbl].
    + by rewrite Z.min_l by lia.
    + rewrite Z.min_r by lia.
      rewrite !take_ge; [done | |]; rewrite length_drop; subst len; lia.
Qed.

Lemma take_add_app l (n m : nat) :
  take (n + m) l = take n l ++ take m (drop n l).
Proof.
  revert l. induction n as [|n IH]; intros l; [done|].
  destruct l as [|x l]; simpl; [by rewrite take_nil | by rewrite IH].
Qed.

(** The slice of page [p] for a limit [n ≥ 1]. *)
Definition page_slice l (limit p : Z) : list A :=
  Js.slice l ((p - 1) * limit) ((p - 1) * limit + limit).

(** X13. For a limit of at least 1, the slices of the pages 1 to [k]
    follow each other in the ranked list without gap or overlap: put one
    after the other they are its first [k * limit] entries. *)
Theorem pages_partition l (limit : Z) (k : nat) :
  1 ≤ limit →
  concat ((λ p, page_slice l limit (Z.of_nat p)) <$> seq 1 k)
  = take (k * Z.to_nat limit) l.
Proof.
  intros Hl. induction k as [|k IH]; [done|].
  rewrite seq_S, fmap_app, concat_app, IH. simpl. rewrite app_nil_r.
  unfold page_slice. rewrite slice_take_drop by nia.
  replace (Z.to_nat ((Z.of_nat (S k) - 1) * limit + limit
                     - (Z.of_nat (S k) - 1) * limit)) with (Z.to_nat limit)
    by (f_equal; lia).
  replace (Z.to_nat ((Z.of_nat (S k) - 1) * limit)) with (k * Z.to_nat limit)%nat
    by nia.
  rewrite <- take_add_app. f_equal. lia.
Qed.

Lemma page_slice_length l (limit p : Z) :
  1 ≤ p → 1 ≤ limit → Z.of_nat (length (page_slice l limit p)) ≤ limit.
Proof.
  intros Hp Hl. unfold page_slice. rewrite slice_take_drop by nia.
  rewrite length_take. lia.
Qed.

Lemma page_slice_subset l (limit p : Z) x :
  1 ≤ p → 1 ≤ limit → x ∈ page_slice l limit p → x ∈ l.
Proof.
  intros Hp Hl. unfold page_slice. rewrite slice_take_drop by nia.
  intros Hx. apply elem_of_take in Hx as (i & Hx & _).
  rewrite lookup_drop in Hx. by apply list_elem_of_lookup_2 in Hx.
Qed.


End Slices.

(** The pages 1, 2 and 3 of a list of five, limit 2. *)
Lemma pages_partition_witness :
  concat ((λ p, page_slice [10; 20; 30; 40; 50] 2 (Z.of_nat p)) <$> seq 1 3)
  = take (3 * Z.to_nat 2) [10; 20; 30; 40; 50].
Proof. apply (pages_partition [10; 20; 30; 40; 50] 2 3). lia. Defined.




(** *** What a personalized page holds *)

Lemma reorder_length (ids : list Js.value) (rows : list paper) :
  (length (reorder ids rows) ≤ length ids)%nat.
Proof.
  unfold reorder. induction ids as [|id ids IH]; [done|].
  cbn [omap list_omap]. destruct (paperMap_get _ id); simpl; lia.
Qed.

Lemma reorder_ranked (ids : list Js.value) (rows : list paper) (p : paper) :
  p ∈ reorder ids rows → FeedFacts.num (Paper_ID p) ∈ ids ∧ p ∈ rows.
Proof.
  unfold reorder. rewrite list_elem_of_omap.
  intros ([[| |n| | |]|] & Hin & Hget); try done. simpl in Hget.
  pose proof (FeedFacts.paperMap_get_spec n rows) as H. rewrite Hget in H.
  destruct H as [Hrow <-]. done.
Qed.

(** X20. With page and limit of at least 1, an answer composed in
    personalized mode holds at most [limit] papers, and each of them is a
    row the store returned whose id the recommender ranked: whatever the
    store returns, nothing unranked gets onto a personalized page. *)
Theorem personalized_page_sound (e : env) (req : request) (b : body) :
  1 ≤ page_of req → 1 ≤ limit_of req →
  compose e req = Some b →
  personalized (choose_plan (recommendedPaperIds e req) (page_of req) (limit_of req))
  = true →
  Z.of_nat (length (papers b)) ≤ limit_of req
  ∧ ∀ p, p ∈ papers b →
      FeedFacts.num (Paper_ID p) ∈ recommendedPaperIds e req
      ∧ ∃ rows, query_by_ids e
                  (page_slice (recommendedPaperIds e req) (limit_of req) (page_of req))
                = Some rows ∧ p ∈ rows.
Proof.
  intros Hp Hl. unfold compose.
  set (recs := recommendedPaperIds e req).
  destruct (choose_plan recs (page_of req) (limit_of req)) as [|ids|] eqn:Hplan;
    [done| |].
  - assert (ids = page_slice recs (limit_of req) (page_of req)) as ->.
    { unfold choose_plan in Hplan. fold (page_slice recs (limit_of req) (page_of req)) in Hplan.
      repeat case_bool_decide; congruence. }
    unfold personalized_page. fold (page_slice recs (limit_of req) (page_of req)).
    destruct (query_by_ids e _) as [rows|] eqn:Hq; [|done].
    intros [= <-] _. cbn [papers]. split.
    + pose proof (reorder_length (page_slice recs (limit_of req) (page_of req)) rows).
      pose proof (page_slice_length recs (limit_of req) (page_of req) Hp Hl). lia.
    + intros p Hin. apply reorder_ranked in Hin as [Hid Hrow]. split.
      * by apply (page_slice_subset recs (limit_of req) (page_of req)).
      * by exists rows.
  - intros [= <-] _. cbn [papers]. split; [simpl; lia|].
    by intros p ?%elem_of_nil.
Qed.

(** Page 3 of the 45 ranked papers, limit 20: five papers, all ranked. *)
Lemma personalized_page_sound_witness :
  ∃ b, compose FeedFacts.feed45 (FeedFacts.listing (Some "3") (Some "20") None) = Some b
       ∧ Z.of_nat (length (papers b)) ≤ 20.
Proof.
  eexists. split; [vm_compute; reflexivity|].
  apply (personalized_page_sound FeedFacts.feed45
           (FeedFacts.listing (Some "3") (Some "20") None) _
           ltac:(vm_compute; discriminate) ltac:(vm_compute; discriminate)
           ltac:(vm_compute; reflexivity) ltac:(vm_compute; reflexivity)).
Defined.

(** *** Who asks *)

(** X19. A request with search text or a field filter is answered the
    same whoever sends it: the [Authorization] header, the user agent
    and the address change neither the answer nor what is cached, only
    the user the search is logged for. *)
Theorem filtered_answer_ignores_caller (e : env)
    (p l f s q : option string) (u : option jwt_payload)
    (a1 ua1 ip1 a2 ua2 ip2 : option string) (now later : Z)
    (c : Cache.queryCache body) :
  Js.truthy_str s = true ∨ Js.truthy_str f = true →
  response_of (get_papers e (Request p l f s q u a1 ua1 ip1) now later c)
  = response_of (get_papers e (Request p l f s q u a2 ua2 ip2) now later c)
  ∧ cache_of (get_papers e (Request p l f s q u a1 ua1 ip1) now later c)
    = cache_of (get_papers e (Request p l f s q u a2 ua2 ip2) now later c).
Proof.
  intros Hf.
  assert (Hc : compose e (Request p l f s q u a1 ua1 ip1)
               = compose e (Request p l f s q u a2 ua2 ip2)).
  { unfold compose, recommendedPaperIds. cbn [q_search q_fieldId].
    destruct Hf as [-> | ->]; rewrite ?andb_false_r; done. }
  unfold get_papers. rewrite Hc. clear Hc.
  change (listing_key (Request p l f s q u a1 ua1 ip1))
    with (listing_key (Request p l f s q u a2 ua2 ip2)).
  destruct (Cache.getCachedQuery _ now c) as [[b|] c1]; [done|].
  destruct (getPool e); simpl; [|done].
  by destruct (compose e _).
Qed.

(** The same search from user 1 and from user 2. *)
Lemma filtered_answer_ignores_caller_witness :
  response_of
    (get_papers FeedFacts.feed_per_user
       (Request None None None (Some "graphs") None None
          (Some "Bearer t1") None None) 0 1 [])
  = response_of
      (get_papers FeedFacts.feed_per_user
         (Request None None None (Some "graphs") None None
            (Some "Bearer t2") (Some "curl") None) 0 1 []).
Proof.
  exact (proj1 (filtered_answer_ignores_caller FeedFacts.feed_per_user
                  None None None (Some "graphs") None None
                  (Some "Bearer t1") None None (Some "Bearer t2") (Some "curl") None
                  0 1 [] (or_introl eq_refl))).
Defined.

End FeedMore.
